(** * Morphing tree scene: generators, morph damping, gesture bridge, camera

    A shallow embedding of the numerical core of [src/index.tsx]: the
    spatial generators, the per-frame callback of [Scene], the detection
    loop body of [GestureController] and the initial state built by [App].

    JavaScript numbers are read as real numbers ([R]): [Math.exp],
    [Math.sin], [Math.cos], [Math.acos], [Math.sqrt], [Math.cbrt] and
    [Math.PI] are the real functions and constant of the same names.  Each
    call of [Math.random] is an explicit argument, in the order of the
    calls.  React's state is explicit: [setIsTree] writes the state and a
    render makes it the [isTree] that the frame callback and the button
    handler read. *)

From Stdlib Require Import Reals Lra Psatz List String Bool.
Import ListNotations.

Open Scope R_scope.

(** ** Library functions used by the source *)

(** [Math.cbrt]: the real cube root, odd in its argument. *)
Definition cbrt (a : R) : R :=
  match total_order_T a 0 with
  | inleft (left _) => - Rpower (- a) (/ 3)
  | inleft (right _) => 0
  | inright _ => Rpower a (/ 3)
  end.

Module THREE.

(** [THREE.Vector3], with the fields the source reads. *)
Record Vector3 : Type := mkVector3 { x : R; y : R; z : R }.

(** [Vector3.length()]: the Euclidean norm. *)
Definition length (p : Vector3) : R :=
  sqrt (x p * x p + y p * y p + z p * z p).

(** Norm of the horizontal part [(x, z)] of a point. *)
Definition lengthXZ (p : Vector3) : R :=
  sqrt (x p * x p + z p * z p).

(** [THREE.MathUtils.lerp(x, y, t)]; three.js is not under src/, its
    definition is [(1 - t) * x + t * y]. *)
Definition lerp (a b t : R) : R := (1 - t) * a + t * b.

(** [THREE.MathUtils.damp(x, y, lambda, dt)]; three.js defines it as
    [lerp(x, y, 1 - Math.exp(-lambda * dt))], which is the damping step of
    the spec (lemma [damp_exp]). *)
Definition damp (a b lambda dt : R) : R :=
  lerp a b (1 - exp (- lambda * dt)).

End THREE.

(** ** Spatial generators (src/index.tsx, lines 14-56) *)

Definition TREE_HEIGHT : R := 12.
Definition TREE_RADIUS : R := 4.5.
Definition SCATTER_RADIUS : R := 25.

(** [randomInSphere(radius)]; [u], [v], [w] are the three [Math.random()]
    draws in call order. *)
Definition randomInSphere (radius u v w : R) : THREE.Vector3 :=
  let theta := 2 * PI * u in
  let phi := acos (2 * v - 1) in
  let r := cbrt w * radius in
  let sinPhi := sin phi in
  THREE.mkVector3
    (r * sinPhi * cos theta)
    (r * sinPhi * sin theta)
    (r * cos phi).

(** [pointInCone(h, r)]; [u1], [u2], [u3] are the draws in call order. *)
Definition pointInCone (h r u1 u2 u3 : R) : THREE.Vector3 :=
  let y := u1 * h in
  let rAtY := (r * (h - y)) / h in
  let angle := u2 * PI * 2 in
  let rad := sqrt u3 * rAtY in
  THREE.mkVector3 (rad * cos angle) (y - h / 2) (rad * sin angle).

(** [pointOnConeSurface(h, r, t)]; [u] is the single draw. *)
Definition pointOnConeSurface (h r t u : R) : THREE.Vector3 :=
  let y := t * h - h / 2 in
  let rAtY := r * (1 - t) in
  let angle := u * PI * 2 in
  THREE.mkVector3 (rAtY * cos angle) y (rAtY * sin angle).

(** ** Shared state (src/index.tsx, lines 138-144 and 699-708) *)

(** [type SyncData]: the mutable object shared by the detection loop and the
    frame callbacks. *)
Record SyncData : Type := mkSyncData {
  value : R;
  handX : R;
  handY : R;
  hasHand : bool
}.

(** The object built by [App]'s [useMemo]. *)
Definition initialSyncData : SyncData :=
  {| value := 0; handX := 0.5; handY := 0.5; hasHand := false |}.

(** ** Detection results (MediaPipe [GestureRecognizerResult]) *)

Record Category : Type := mkCategory { categoryName : string }.

Record NormalizedLandmark : Type := mkLandmark { lm_x : R; lm_y : R }.

Record GestureRecognizerResult : Type := mkResult {
  gestures : list (list Category);
  landmarks : list (list NormalizedLandmark)
}.

(** ** Orbit controls

    [minPolarAngle] and [maxPolarAngle] of the [OrbitControls] element
    (lines 669-670); they are also the two ends of the polar mapping
    (line 638). *)
Definition polarMin : R := PI / 4.
Definition polarMax : R := PI / 1.5.

(** [Math.max(lo, Math.min(hi, a))]. *)
Definition clamp (lo hi a : R) : R := Rmax lo (Rmin hi a).

(** Modelled from the spec: [OrbitControls] is the drei/three.js class, not
    under src/.  The model keeps the three properties the frame callback
    touches.  [getAzimuthalAngle]/[getPolarAngle] read the angles,
    [setAzimuthalAngle] writes the azimuth, [setPolarAngle] writes the
    polar angle clamped to the configured range (spec, 3 and 4.4: the
    angles are clamped to the camera's configured limits; the source
    configures polar limits only), and [update()] advances the azimuth by
    a constant step while [autoRotate] is set (spec, 4.4: the camera
    advances azimuth at a constant auto-rotate rate). *)
Record OrbitControls : Type := mkControls {
  azimuthalAngle : R;
  polarAngle : R;
  autoRotate : bool
}.

Definition setAzimuthalAngle (a : R) (c : OrbitControls) : OrbitControls :=
  {| azimuthalAngle := a; polarAngle := polarAngle c; autoRotate := autoRotate c |}.

Definition setPolarAngle (a : R) (c : OrbitControls) : OrbitControls :=
  {| azimuthalAngle := azimuthalAngle c;
     polarAngle := clamp polarMin polarMax a;
     autoRotate := autoRotate c |}.

Definition setAutoRotate (b : bool) (c : OrbitControls) : OrbitControls :=
  {| azimuthalAngle := azimuthalAngle c; polarAngle := polarAngle c; autoRotate := b |}.

(** ** Application state

    [const [isTree, setIsTree] = useState(false)] (line 700) gives two
    things.  [isTree] is the value the last render of [App] saw: the prop
    of [Scene] that its frame callback captured (lines 615-620) and the
    value the button handler closes over (line 720).  [stateIsTree] is
    React's state, written by [setIsTree]; a later render shows it.
    [controls] is [controlsRef.current], which is null until the controls
    are mounted. *)
Record AppState : Type := mkApp {
  isTree : bool;
  stateIsTree : bool;
  syncData : SyncData;
  controls : option OrbitControls
}.

(** [useState(false)], rendered, and the initial [syncData]. *)
Definition initialApp (c : option OrbitControls) : AppState :=
  {| isTree := false; stateIsTree := false;
     syncData := initialSyncData; controls := c |}.

(** [setTreeState(b)], that is [setIsTree(b)]: React records the new
    state; the rendered [isTree] is not touched. *)
Definition setTreeState (b : bool) (w : AppState) : AppState :=
  {| isTree := isTree w; stateIsTree := b;
     syncData := syncData w; controls := controls w |}.

(** The overlay button: [() => setIsTree(!isTree)], with the [isTree] of
    the last render. *)
Definition toggleState (w : AppState) : AppState :=
  setTreeState (negb (isTree w)) w.

Definition setSyncData (sd : SyncData) (w : AppState) : AppState :=
  {| isTree := isTree w; stateIsTree := stateIsTree w;
     syncData := sd; controls := controls w |}.

(** A render of [App] after [setIsTree] (React and react-three-fiber are
    not under src/): [Scene] and the button handler get the new [isTree],
    and the changed prop [autoRotate={isTree}] (line 673) is written to the
    mounted controls. *)
Definition render (w : AppState) : AppState :=
  {| isTree := stateIsTree w;
     stateIsTree := stateIsTree w;
     syncData := syncData w;
     controls :=
       if Bool.eqb (stateIsTree w) (isTree w) then controls w
       else option_map (setAutoRotate (stateIsTree w)) (controls w) |}.

(** ** Gesture controller (src/index.tsx, lines 187-219) *)

(** How one pass of the loop body ends: normally, or by the [TypeError] of
    reading a property of [undefined]; the state is the one reached. *)
Inductive Completion : Type :=
| Normal (w : AppState)
| Throw (w : AppState).

Definition stateOf (c : Completion) : AppState :=
  match c with Normal w => w | Throw w => w end.

(** The body of [loop] for one recognition [result] (lines 192-215). *)
Definition processResult (result : GestureRecognizerResult) (w : AppState)
  : Completion :=
  match gestures result, landmarks result with
  | g0 :: _, lms :: _ =>
      let gesture := nth_error g0 0 in
      match nth_error lms 9 with
      | None => Throw w
      | Some lm9 =>
          let rawX := 1.0 - lm_x lm9 in
          let rawY := lm_y lm9 in
          let sd := syncData w in
          let sd' :=
            {| value := value sd;
               handX := THREE.lerp (handX sd) rawX 0.1;
               handY := THREE.lerp (handY sd) rawY 0.1;
               hasHand := true |} in
          let w' := setSyncData sd' w in
          match gesture with
          | None => Throw w'
          | Some g =>
              if (categoryName g =? "Open_Palm")%string then
                Normal (setTreeState false w')
              else if (categoryName g =? "Closed_Fist")%string then
                Normal (setTreeState true w')
              else Normal w'
          end
      end
  | _, _ =>
      let sd := syncData w in
      Normal (setSyncData
                {| value := value sd; handX := handX sd; handY := handY sd;
                   hasHand := false |} w)
  end.

(** Every landmark coordinate of a result lies in [[0,1]]. *)
Definition landmarkInRange (lm : NormalizedLandmark) : Prop :=
  0 <= lm_x lm <= 1 /\ 0 <= lm_y lm <= 1.

Definition rawInRange (result : GestureRecognizerResult) : Prop :=
  Forall (Forall landmarkInRange) (landmarks result).

(** The smoothed hand position of a state lies in the unit square. *)
Definition handInRange (w : AppState) : Prop :=
  0 <= handX (syncData w) <= 1 /\ 0 <= handY (syncData w) <= 1.

(** ** Scene frame callback (src/index.tsx, lines 618-661) *)

(** [const target = isTree ? 1 : 0]. *)
Definition target (w : AppState) : R := if isTree w then 1 else 0.

(** [targetAzimuth] and [targetPolar] of the camera mapping (lines 633, 638). *)
Definition targetAzimuth (hx : R) : R := (hx - 0.5) * PI.

Definition targetPolar (hy : R) : R := PI / 4 + hy * (PI / 1.5 - PI / 4).

(** Sample states used to evaluate the model. *)
Definition sampleControls : OrbitControls :=
  {| azimuthalAngle := 0; polarAngle := PI / 2; autoRotate := false |}.

Definition halfwayTree : AppState :=
  {| isTree := true;
     stateIsTree := true;
     syncData := {| value := 1 / 2; handX := 0.5; handY := 0.5; hasHand := false |};
     controls := Some sampleControls |}.

Definition scatteredToTree : AppState :=
  render (setTreeState true (initialApp (Some sampleControls))).

Definition assembledToScatter : AppState :=
  {| isTree := false;
     stateIsTree := false;
     syncData := {| value := 1; handX := 0.5; handY := 0.5; hasHand := false |};
     controls := Some sampleControls |}.

Definition fistResult : GestureRecognizerResult :=
  {| gestures := [[mkCategory "Closed_Fist"]];
     landmarks := [repeat (mkLandmark (1 / 4) (3 / 4)) 21] |}.

Definition noHandResult : GestureRecognizerResult :=
  {| gestures := []; landmarks := [] |}.

Section Frame.

(** The angle by which [update()] advances the azimuth while
    [autoRotate] is set; constant for the fixed [autoRotateSpeed]. *)
Variable autoRotateStep : R.

(** Modelled from the spec: [OrbitControls.update()] of the library, as
    far as the auto-rotation goes. *)
Definition update (c : OrbitControls) : OrbitControls :=
  if autoRotate c
  then setAzimuthalAngle (azimuthalAngle c + autoRotateStep) c
  else c.

(** The camera part of the callback, for mounted controls (lines 625-659). *)
Definition cameraControl (isTree : bool) (sd : SyncData) (c : OrbitControls)
  : OrbitControls :=
  let c1 :=
    if hasHand sd then
      let c0 := setAutoRotate false c in
      let targetAzimuth := targetAzimuth (handX sd) in
      let targetPolar := targetPolar (handY sd) in
      let currentAzimuth := azimuthalAngle c0 in
      let currentPolar := polarAngle c0 in
      let nextAzimuth := THREE.lerp currentAzimuth targetAzimuth 0.05 in
      let nextPolar := THREE.lerp currentPolar targetPolar 0.05 in
      setPolarAngle nextPolar (setAzimuthalAngle nextAzimuth c0)
    else
      setAutoRotate isTree c in
  update c1.

(** The [useFrame] callback of [Scene]; [delta] is the frame's delta time. *)
Definition frame (delta : R) (w : AppState) : AppState :=
  let target := target w in
  let sd := syncData w in
  let sd' :=
    {| value := THREE.damp (value sd) target 1.5 delta;
       handX := handX sd; handY := handY sd; hasHand := hasHand sd |} in
  {| isTree := isTree w;
     stateIsTree := stateIsTree w;
     syncData := sd';
     controls := option_map (cameraControl (isTree w) sd') (controls w) |}.

(** Frames run one after the other with the given delta times. *)
Definition runFrames (deltas : list R) (w : AppState) : AppState :=
  fold_left (fun w' delta => frame delta w') deltas w.

(** Sum of the delta times. *)
Definition elapsed (deltas : list R) : R := fold_right Rplus 0 deltas.

(** One event of a run: a detection result is processed, a frame is
    drawn, the button is pressed, or React renders.  A pass that throws
    ends the detection loop in the source; the relation allows further
    results after it, so it covers every run of the program. *)
Inductive step : AppState -> AppState -> Prop :=
| step_detect (result : GestureRecognizerResult) (w : AppState) :
    rawInRange result -> step w (stateOf (processResult result w))
| step_frame (delta : R) (w : AppState) : step w (frame delta w)
| step_toggle (w : AppState) : step w (toggleState w)
| step_render (w : AppState) : step w (render w).

(** States reachable from the initial one. *)
Inductive reachable : AppState -> Prop :=
| reachable_init (c : option OrbitControls) : reachable (initialApp c)
| reachable_step (w w' : AppState) : reachable w -> step w w' -> reachable w'.

End Frame.

(** ** Further generators (src/index.tsx, lines 58-70 and 426-437) *)

(** [getSpiralPos(i, count, h, r)]: the pearl garland. *)
Definition getSpiralPos (i count h r : R) : THREE.Vector3 :=
  let t := i / count in
  let y := t * h - h / 2 in
  let rAtY := (r * (1 - t)) + 0.2 in
  let loops := 8 in
  let angle := t * PI * 2 * loops in
  THREE.mkVector3 (rAtY * cos angle) y (rAtY * sin angle).

(** [getGiftPos()] of [Ornaments]; [u1], [u2], [u3] are the draws in call
    order. *)
Definition getGiftPos (u1 u2 u3 : R) : THREE.Vector3 :=
  let r := 2.5 + u1 * 4.0 in
  let a := u2 * PI * 2 in
  let yOffset := u3 * 1.5 in
  THREE.mkVector3 (r * cos a) (- TREE_HEIGHT / 2 + 0.6 + yOffset) (r * sin a).

(** [getSurfaceDistributedPos(rScale)] of [Ornaments]; [u] is its own draw
    and [ua] the angle draw of [pointOnConeSurface]. *)
Definition getSurfaceDistributedPos (rScale u ua : R) : THREE.Vector3 :=
  let t := 1 - sqrt u in
  pointOnConeSurface TREE_HEIGHT (TREE_RADIUS * rScale) t ua.

(** The outline of the star (lines 365-371): point [i] of the loop. *)
Record Vector2 : Type := mkVector2 { x2 : R; y2 : R }.

Definition starPoint (i : nat) : Vector2 :=
  let dist := if Nat.eqb (i mod 2) 0 then 1 else 0.5 in
  let ang := (INR i / 10) * PI * 2 in
  mkVector2 (cos ang * dist) (sin ang * dist).

Definition starPoints : list Vector2 := map starPoint (seq 0 10).

(** ** Morphing instances (src/index.tsx, lines 293-353) *)

(** [THREE.Euler], with its three angles. *)
Record Euler : Type := mkEuler { ex : R; ey : R; ez : R }.

(** One entry of [data]. *)
Record InstanceItem : Type := mkItem {
  treePos : THREE.Vector3;
  scatterPos : THREE.Vector3;
  rot : Euler;
  scale : R
}.

(** The body of the [map] callback of [data] for the tree position
    returned by [getTreePos(i)]; [u], [v], [w] are the draws of
    [randomInSphere], [r1], [r2] those of the rotation and [r3] the one of
    the scale. *)
Definition makeInstance (scale0 : R) (treeP : THREE.Vector3)
           (u v w r1 r2 r3 : R) : InstanceItem :=
  let normalizedHeight := (THREE.y treeP + TREE_HEIGHT / 2) / TREE_HEIGHT in
  let heightScaleFactor := 1.0 - normalizedHeight * 0.5 in
  let scatterP := randomInSphere (SCATTER_RADIUS * 0.8) u v w in
  let rot0 := mkEuler (r1 * PI) (r2 * PI) 0 in
  {| treePos := treeP;
     scatterPos := scatterP;
     rot := rot0;
     scale := scale0 * heightScaleFactor * (0.8 + r3 * 0.4) |}.

(** [1.0 - Math.pow(1.0 - progress, 3.0)]: the cubic ease-out of the
    instances and of the star; [Math.pow] with exponent 3 is the cube. *)
Definition easeOutCubic (progress : R) : R := 1.0 - (1.0 - progress) ^ 3.

(** What the frame callback writes into [dummy] for instance [i]. *)
Record Transform : Type := mkTransform {
  position : THREE.Vector3;
  rotation : Euler;
  scalar : R
}.

Definition instanceTransform (time progress i : R) (item : InstanceItem)
  : Transform :=
  let easeProgress := easeOutCubic progress in
  let x := THREE.lerp (THREE.x (scatterPos item)) (THREE.x (treePos item)) easeProgress in
  let y := THREE.lerp (THREE.y (scatterPos item)) (THREE.y (treePos item)) easeProgress in
  let z := THREE.lerp (THREE.z (scatterPos item)) (THREE.z (treePos item)) easeProgress in
  {| position := THREE.mkVector3 x (y + sin (time + i * 10) * 0.1) z;
     rotation := mkEuler (ex (rot item) + time * 0.2)
                         (ey (rot item) + time * 0.1)
                         (ez (rot item));
     scalar := scale item |}.

(** ** Top star (src/index.tsx, lines 494-513) *)

(** [Vector3.lerpVectors(v1, v2, alpha)]; three.js defines each component
    as [v1 + (v2 - v1) * alpha]. *)
Definition lerpVectors (v1 v2 : THREE.Vector3) (alpha : R) : THREE.Vector3 :=
  THREE.mkVector3
    (THREE.x v1 + (THREE.x v2 - THREE.x v1) * alpha)
    (THREE.y v1 + (THREE.y v2 - THREE.y v1) * alpha)
    (THREE.z v1 + (THREE.z v2 - THREE.z v1) * alpha).

Definition starEndPos : THREE.Vector3 :=
  THREE.mkVector3 0 (TREE_HEIGHT / 2 + 0.5) 0.

(** The frame callback of [TopStar] for the start position [startPos]. *)
Definition topStarTransform (time progress : R) (startPos : THREE.Vector3)
  : Transform :=
  let easeProgress := easeOutCubic progress in
  let s := 1.0 + sin (time * 2) * 0.1 in
  {| position := lerpVectors startPos starEndPos easeProgress;
     rotation := mkEuler 0 (time * 0.5) (sin time * 0.1);
     scalar := s |}.

(** ** Runs of the application *)

(** A result the loop body processes without a [TypeError]: no hand, or a
    hand with a gesture entry and at least ten landmarks. *)
Definition wellFormed (result : GestureRecognizerResult) : bool :=
  match gestures result, landmarks result with
  | g0 :: _, lms :: _ =>
      negb (Nat.eqb (List.length g0) 0) && Nat.leb 10 (List.length lms)
  | _, _ => true
  end.

Inductive Event : Type :=
| Detect (result : GestureRecognizerResult)
| Frame (delta : R)
| Toggle
| Render.

(** The frames of a run have delta times that are not negative. *)
Definition forwardFrames (es : list Event) : Prop :=
  Forall (fun e => match e with Frame delta => 0 <= delta | _ => True end) es.

Section Run.

Variable autoRotateStep : R.

Definition applyEvent (w : AppState) (e : Event) : AppState :=
  match e with
  | Detect result => stateOf (processResult result w)
  | Frame delta => frame autoRotateStep delta w
  | Toggle => toggleState w
  | Render => render w
  end.

Definition run (es : list Event) (w : AppState) : AppState :=
  fold_left applyEvent es w.

End Run.

(** ** Facts on the library functions *)

Lemma cos2_sin2_mul (a : R) : cos a * cos a + sin a * sin a = 1.
Proof.
  pose proof (sin2_cos2 a) as H. unfold Rsqr in H. lra.
Qed.

Lemma sqrt_square_nonneg (a : R) : 0 <= a -> sqrt (a * a) = a.
Proof.
  intros Ha. apply sqrt_square. exact Ha.
Qed.

Lemma Rpower_third_cube (a : R) : 0 < a -> Rpower a (/ 3) ^ 3 = a.
Proof.
  intros Ha.
  assert (Hp : 0 < Rpower a (/ 3)) by (unfold Rpower; apply exp_pos).
  rewrite <- (Rpower_pow 3 _ Hp).
  rewrite Rpower_mult.
  replace (/ 3 * INR 3) with 1 by (simpl; field).
  apply Rpower_1. exact Ha.
Qed.

Lemma cbrt_cube (a : R) : cbrt a ^ 3 = a.
Proof.
  unfold cbrt. destruct (total_order_T a 0) as [[Hlt | Heq] | Hgt].
  - assert (H : Rpower (- a) (/ 3) ^ 3 = - a) by (apply Rpower_third_cube; lra).
    simpl in *. nra.
  - subst a. simpl. ring.
  - apply Rpower_third_cube. exact Hgt.
Qed.

Lemma cbrt_nonneg (a : R) : 0 <= a -> 0 <= cbrt a.
Proof.
  intros Ha. unfold cbrt.
  destruct (total_order_T a 0) as [[Hlt | Heq] | Hgt]; try lra.
  left. unfold Rpower. apply exp_pos.
Qed.

Lemma cube_le_reflect (a b : R) : 0 <= a -> 0 <= b -> a ^ 3 <= b ^ 3 -> a <= b.
Proof.
  intros Ha Hb H. destruct (Rle_lt_dec a b) as [Hle | Hlt]; [exact Hle |].
  exfalso. simpl in H.
  assert (H1 : b * b < a * a) by nra.
  assert (H2 : b * (b * b) <= b * (a * a)) by (apply Rmult_le_compat_l; lra).
  assert (H3 : b * (a * a) < a * (a * a)) by (apply Rmult_lt_compat_r; nra).
  lra.
Qed.

Lemma cbrt_le_1 (w : R) : 0 <= w <= 1 -> cbrt w <= 1.
Proof.
  intros [H0 H1]. apply cube_le_reflect.
  - apply cbrt_nonneg; exact H0.
  - lra.
  - rewrite cbrt_cube. simpl. lra.
Qed.

(** The norm of a sampled point is the radial distance [cbrt w * radius]. *)
Lemma randomInSphere_length (radius u v w : R) :
  0 <= radius -> 0 <= w ->
  THREE.length (randomInSphere radius u v w) = cbrt w * radius.
Proof.
  intros Hr Hw. unfold randomInSphere, THREE.length. cbn [THREE.x THREE.y THREE.z].
  set (phi := acos (2 * v - 1)). set (theta := 2 * PI * u).
  set (r := cbrt w * radius).
  assert (Hr0 : 0 <= r).
  { unfold r. apply Rmult_le_pos; [apply cbrt_nonneg; exact Hw | exact Hr]. }
  pose proof (cos2_sin2_mul phi) as Hphi.
  pose proof (cos2_sin2_mul theta) as Htheta.
  replace (r * sin phi * cos theta * (r * sin phi * cos theta) +
           r * sin phi * sin theta * (r * sin phi * sin theta) +
           r * cos phi * (r * cos phi))
    with (r * r * (sin phi * sin phi * (cos theta * cos theta + sin theta * sin theta)
                   + cos phi * cos phi)) by ring.
  rewrite Htheta, Rmult_1_r.
  replace (sin phi * sin phi + cos phi * cos phi) with 1 by lra.
  rewrite Rmult_1_r. apply sqrt_square_nonneg. exact Hr0.
Qed.

(** The horizontal norm of a point on the cone is [|r * (1 - t)|]. *)
Lemma pointOnConeSurface_lengthXZ (h r t u : R) :
  THREE.lengthXZ (pointOnConeSurface h r t u) = Rabs (r * (1 - t)).
Proof.
  unfold pointOnConeSurface, THREE.lengthXZ. cbn [THREE.x THREE.z].
  set (a := u * PI * 2). set (q := r * (1 - t)).
  pose proof (cos2_sin2_mul a) as Ha.
  replace (q * cos a * (q * cos a) + q * sin a * (q * sin a))
    with (Rsqr q * (cos a * cos a + sin a * sin a)) by (unfold Rsqr; ring).
  rewrite Ha, Rmult_1_r. apply sqrt_Rsqr_abs.
Qed.

(** ** Claims on the generators *)

(** C7. For every radius [radius > 0] and draws [u], [v], [w] with [w] in
    [[0,1]] (and any [u], [v], in particular those in [[0,1]]), the point
    [p] returned by [randomInSphere] has norm [cbrt w * radius], so
    [|p| <= radius] and
    [|p|^3 = w * radius^3]; hence for every threshold [c] the event
    [|p|^3 <= c * radius^3] is the event [w <= c], so [|p|^3 / radius^3]
    has the distribution of [w]: uniform when [w] is. *)
Theorem C7_randomInSphere_volume (radius u v w : R) :
  0 < radius -> 0 <= w <= 1 ->
  let p := randomInSphere radius u v w in
  THREE.length p = cbrt w * radius /\
  THREE.length p <= radius /\
  THREE.length p ^ 3 = w * radius ^ 3 /\
  (forall c : R, THREE.length p ^ 3 <= c * radius ^ 3 <-> w <= c).
Proof.
  intros Hr [Hw0 Hw1] p. unfold p.
  rewrite randomInSphere_length by lra.
  split; [reflexivity |].
  assert (Hcube : (cbrt w * radius) ^ 3 = w * radius ^ 3).
  { rewrite Rpow_mult_distr, cbrt_cube. reflexivity. }
  assert (Hr3 : 0 < radius ^ 3) by (apply pow_lt; exact Hr).
  split; [| split].
  - pose proof (cbrt_le_1 w (conj Hw0 Hw1)) as Hc.
    pose proof (cbrt_nonneg w Hw0) as Hc0. nra.
  - exact Hcube.
  - intros c. rewrite Hcube. split; intros H.
    + apply Rmult_le_reg_r with (radius ^ 3); assumption.
    + apply Rmult_le_compat_r; lra.
Qed.

Lemma C7_randomInSphere_volume_witness :
  let p := randomInSphere SCATTER_RADIUS (1 / 2) (1 / 2) (1 / 8) in
  THREE.length p = cbrt (1 / 8) * SCATTER_RADIUS /\
  THREE.length p <= SCATTER_RADIUS /\
  THREE.length p ^ 3 = 1 / 8 * SCATTER_RADIUS ^ 3 /\
  (forall c : R, THREE.length p ^ 3 <= c * SCATTER_RADIUS ^ 3 <-> 1 / 8 <= c).
Proof.
  apply (C7_randomInSphere_volume SCATTER_RADIUS (1 / 2) (1 / 2) (1 / 8));
    unfold SCATTER_RADIUS; lra.
Defined.

(** C8. For every height [h], base radius [r >= 0] (a radius is a length),
    fraction [t] in [[0,1]] and angle draw [u], the point returned by
    [pointOnConeSurface] has horizontal norm [r * (1 - t)] and
    [y = t * h - h / 2]. *)
Theorem C8_pointOnConeSurface_on_surface (h r t u : R) :
  0 <= r -> 0 <= t <= 1 ->
  let p := pointOnConeSurface h r t u in
  THREE.lengthXZ p = r * (1 - t) /\ THREE.y p = t * h - h / 2.
Proof.
  intros Hr [Ht0 Ht1] p. unfold p. split.
  - rewrite pointOnConeSurface_lengthXZ. apply Rabs_right.
    apply Rle_ge. apply Rmult_le_pos; lra.
  - reflexivity.
Qed.

Lemma C8_pointOnConeSurface_on_surface_witness :
  let p := pointOnConeSurface TREE_HEIGHT (TREE_RADIUS * 0.9) (1 / 4) (1 / 3) in
  THREE.lengthXZ p = TREE_RADIUS * 0.9 * (1 - 1 / 4) /\
  THREE.y p = 1 / 4 * TREE_HEIGHT - TREE_HEIGHT / 2.
Proof.
  apply (C8_pointOnConeSurface_on_surface
           TREE_HEIGHT (TREE_RADIUS * 0.9) (1 / 4) (1 / 3));
    unfold TREE_RADIUS; lra.
Defined.

(** ** Facts on interpolation and damping *)

Lemma lerp_unit (a b t : R) :
  0 <= a <= 1 -> 0 <= b <= 1 -> 0 <= t <= 1 -> 0 <= THREE.lerp a b t <= 1.
Proof.
  intros Ha Hb Ht. unfold THREE.lerp. split; nra.
Qed.

(** [damp] is the exponential approach of the spec. *)
Lemma damp_exp (a b lambda dt : R) :
  THREE.damp a b lambda dt = b + (a - b) * exp (- lambda * dt).
Proof.
  unfold THREE.damp, THREE.lerp. ring.
Qed.

Lemma exp_neg_unit (a : R) : a < 0 -> 0 < exp a < 1.
Proof.
  intros Ha. split; [apply exp_pos |].
  rewrite <- exp_0. apply exp_increasing. exact Ha.
Qed.

Lemma exp_nonpos_le_1 (a : R) : a <= 0 -> 0 < exp a <= 1.
Proof.
  intros [Ha | Ha].
  - pose proof (exp_neg_unit a Ha). lra.
  - subst a. rewrite exp_0. lra.
Qed.

Lemma exp_pos_gt_1 (a : R) : 0 < a -> 1 < exp a.
Proof.
  intros Ha. rewrite <- exp_0. apply exp_increasing. exact Ha.
Qed.

Lemma target_cases (w : AppState) : target w = 0 \/ target w = 1.
Proof.
  unfold target. destruct (isTree w); [right | left]; reflexivity.
Qed.

(** Scaling the offset from [b] by a factor in [[0,1]] keeps the point
    between [a] and [b] and does not increase the distance to [b]. *)
Lemma contract_between (a b k : R) :
  0 <= k <= 1 ->
  Rmin a b <= b + (a - b) * k <= Rmax a b /\
  Rabs (b + (a - b) * k - b) <= Rabs (a - b).
Proof.
  intros [Hk0 Hk1]. split.
  - unfold Rmin, Rmax. destruct (Rle_dec a b); split; nra.
  - replace (b + (a - b) * k - b) with ((a - b) * k) by ring.
    rewrite Rabs_mult, (Rabs_right k) by lra.
    pose proof (Rabs_pos (a - b)). nra.
Qed.

Lemma expand_away (a b k : R) :
  1 <= k -> Rabs (a - b) <= Rabs (b + (a - b) * k - b).
Proof.
  intros Hk. replace (b + (a - b) * k - b) with ((a - b) * k) by ring.
  rewrite Rabs_mult, (Rabs_right k) by lra.
  pose proof (Rabs_pos (a - b)). nra.
Qed.

(** ** Bounds on [exp (-4.5)] by repeated squaring *)

Lemma exp_twice (a : R) : exp (a + a) = exp a * exp a.
Proof. apply exp_plus. Qed.

Lemma square_lower (l l' e : R) : 0 <= l -> l <= e -> l' <= l * l -> l' <= e * e.
Proof. intros H0 H1 H2. nra. Qed.

Ltac exp_square_step H l :=
  match type of H with
  | ?l0 <= exp ?a =>
      let H' := fresh "Hsq" in
      assert (H' : l <= exp (a + a))
        by (rewrite exp_twice; apply (square_lower l0); [lra | exact H | lra]);
      clear H; rename H' into H
  end.

Lemma exp_neg_4_5_lower : 0.0106 < exp (- 1.5 * 3).
Proof.
  assert (H : 1 - 9 / 512 <= exp (- (9 / 512))).
  { pose proof (exp_ineq1_le (- (9 / 512))). lra. }
  exp_square_step H 0.96515274.
  exp_square_step H 0.93151981.
  exp_square_step H 0.86772915.
  exp_square_step H 0.75295387.
  exp_square_step H 0.56693953.
  exp_square_step H 0.32142043.
  exp_square_step H 0.10331109.
  exp_square_step H 0.01067318.
  match type of H with _ <= exp ?a => replace a with (- 1.5 * 3) in H by lra end.
  lra.
Qed.

Lemma exp_4_5_lower : 86 < exp (1.5 * 3).
Proof.
  assert (H : 1 + 9 / 512 <= exp (9 / 512)).
  { pose proof (exp_ineq1_le (9 / 512)). lra. }
  exp_square_step H 1.03546524.
  exp_square_step H 1.07218826.
  exp_square_step H 1.14958766.
  exp_square_step H 1.32155178.
  exp_square_step H 1.7464991.
  exp_square_step H 3.0502591.
  exp_square_step H 9.30408057.
  exp_square_step H 86.56591525.
  match type of H with _ <= exp ?a => replace a with (1.5 * 3) in H by lra end.
  lra.
Qed.

Lemma exp_neg_4_5_upper : exp (- 1.5 * 3) < 0.012.
Proof.
  replace (- 1.5 * 3) with (- (1.5 * 3)) by lra.
  rewrite exp_Ropp.
  pose proof exp_4_5_lower as H.
  assert (Hinv : / exp (1.5 * 3) < / 86).
  { apply Rinv_lt_contravar; [| exact H].
    apply Rmult_lt_0_compat; lra. }
  lra.
Qed.

(** ** The morph value under the frame callback *)

Lemma frame_value (s delta : R) (w : AppState) :
  value (syncData (frame s delta w))
  = target w + (value (syncData w) - target w) * exp (- 1.5 * delta).
Proof.
  unfold frame. cbn [syncData value]. rewrite damp_exp.
  do 3 f_equal. lra.
Qed.

Lemma frame_target (s delta : R) (w : AppState) :
  target (frame s delta w) = target w.
Proof. reflexivity. Qed.

(** A frame does not write the hand fields. *)
Lemma frame_hand (s delta : R) (w : AppState) :
  handX (syncData (frame s delta w)) = handX (syncData w) /\
  handY (syncData (frame s delta w)) = handY (syncData w) /\
  hasHand (syncData (frame s delta w)) = hasHand (syncData w).
Proof. repeat split. Qed.

Lemma iter_frame_target (s delta : R) (w : AppState) (n : nat) :
  target (Nat.iter n (frame s delta) w) = target w.
Proof.
  induction n as [| n IH]; [reflexivity |].
  cbn [Nat.iter nat_rect]. rewrite frame_target. exact IH.
Qed.

(** Closed form after [n] frames of equal delta time. *)
Lemma iter_frame_value (s delta : R) (w : AppState) (n : nat) :
  value (syncData (Nat.iter n (frame s delta) w))
  = target w + (value (syncData w) - target w) * exp (- 1.5 * delta) ^ n.
Proof.
  induction n as [| n IH].
  - cbn [Nat.iter nat_rect pow]. ring.
  - change (Nat.iter (S n) (frame s delta) w)
      with (frame s delta (Nat.iter n (frame s delta) w)).
    rewrite frame_value, iter_frame_target, IH. cbn [pow]. ring.
Qed.

Lemma runFrames_target (s : R) (deltas : list R) (w : AppState) :
  target (runFrames s deltas w) = target w.
Proof.
  revert w. induction deltas as [| d ds IH]; intros w; [reflexivity |].
  unfold runFrames in *. cbn [fold_left]. rewrite IH. apply frame_target.
Qed.

(** Closed form after frames of arbitrary delta times: only their sum
    matters. *)
Lemma runFrames_value (s : R) (deltas : list R) (w : AppState) :
  value (syncData (runFrames s deltas w))
  = target w + (value (syncData w) - target w) * exp (- 1.5 * elapsed deltas).
Proof.
  revert w. induction deltas as [| d ds IH]; intros w.
  - cbn. rewrite Rmult_0_r, exp_0. ring.
  - change (runFrames s (d :: ds) w) with (runFrames s ds (frame s d w)).
    rewrite IH, frame_target, frame_value.
    change (elapsed (d :: ds)) with (d + elapsed ds).
    replace (- 1.5 * (d + elapsed ds))
      with (- 1.5 * d + - 1.5 * elapsed ds) by ring.
    rewrite exp_plus. ring.
Qed.

(** C1. For every state, target in {0,1} and delta time [delta > 0], one
    frame sets the morph value to
    [target + (value - target) * exp (-1.5 * delta)]; under repeated
    frames of that delta time every new value lies between the previous
    value and the target and is no farther from the target, the sequence
    is monotone on the side it started on, and the value stays inside
    [[min (value0, target), max (value0, target)]], hence inside [[0,1]]
    when it started there. *)
Theorem C1_morph_damping (s delta : R) (w : AppState) (n : nat) :
  0 < delta ->
  let tgt := target w in
  let v := fun k => value (syncData (Nat.iter k (frame s delta) w)) in
  (tgt = 0 \/ tgt = 1) /\
  value (syncData (frame s delta w))
    = tgt + (value (syncData w) - tgt) * exp (- 1.5 * delta) /\
  v (S n) = tgt + (v n - tgt) * exp (- 1.5 * delta) /\
  Rmin (v n) tgt <= v (S n) <= Rmax (v n) tgt /\
  Rabs (v (S n) - tgt) <= Rabs (v n - tgt) /\
  (v 0%nat <= tgt -> v n <= v (S n) <= tgt) /\
  (tgt <= v 0%nat -> tgt <= v (S n) <= v n) /\
  Rmin (v 0%nat) tgt <= v n <= Rmax (v 0%nat) tgt /\
  (0 <= v 0%nat <= 1 -> 0 <= v n <= 1).
Proof.
  intros Hdelta tgt v.
  pose proof (exp_neg_unit (- 1.5 * delta) ltac:(lra)) as [Hk0 Hk1].
  set (k := exp (- 1.5 * delta)) in *.
  assert (Hstep : v (S n) = tgt + (v n - tgt) * k).
  { unfold v, tgt. rewrite !iter_frame_value. cbn [pow]. fold k. ring. }
  assert (Hv0 : v 0%nat = value (syncData w)) by reflexivity.
  assert (Hvn : v n = tgt + (v 0%nat - tgt) * k ^ n).
  { unfold v, tgt. rewrite iter_frame_value. reflexivity. }
  assert (Hp : 0 <= k ^ n <= 1).
  { split; [apply pow_le; lra |].
    rewrite <- (pow1 n). apply pow_incr. lra. }
  pose proof (contract_between (v n) tgt k ltac:(lra)) as [Hbet Habs].
  pose proof (contract_between (v 0%nat) tgt (k ^ n) Hp) as [Hbet0 _].
  rewrite <- Hstep in Hbet, Habs. rewrite <- Hvn in Hbet0.
  assert (Htgt : tgt = 0 \/ tgt = 1) by apply target_cases.
  split; [exact Htgt |].
  split; [apply frame_value |].
  split; [exact Hstep |].
  split; [exact Hbet |].
  split; [exact Habs |].
  split; [| split; [| split]].
  - intros Hle. assert (v n <= tgt) by (rewrite Hvn; nra).
    rewrite Hstep. split; nra.
  - intros Hle. assert (tgt <= v n) by (rewrite Hvn; nra).
    rewrite Hstep. split; nra.
  - exact Hbet0.
  - intros [H0 H1]. unfold Rmin, Rmax in Hbet0.
    destruct (Rle_dec (v 0%nat) tgt); destruct Htgt; lra.
Qed.

(** C2 (as the code has it).  The frame callback passes its delta time to
    [damp] as it is, with no clamp.  For a value in [[0,1]] and a delta
    time that is zero or positive the new value stays in [[0,1]] and is
    no farther from the target; with delta time zero the value is
    unchanged; with a negative delta time the value does not come closer
    to the target. *)
Theorem C2_unclamped_delta (s delta : R) (w : AppState) :
  0 <= value (syncData w) <= 1 ->
  let tgt := target w in
  let v := value (syncData w) in
  let v' := value (syncData (frame s delta w)) in
  v' = tgt + (v - tgt) * exp (- 1.5 * delta) /\
  (0 <= delta -> 0 <= v' <= 1 /\ Rabs (v' - tgt) <= Rabs (v - tgt)) /\
  (delta = 0 -> v' = v) /\
  (delta < 0 -> Rabs (v - tgt) <= Rabs (v' - tgt)).
Proof.
  intros Hv tgt v v'.
  assert (Hv' : v' = tgt + (v - tgt) * exp (- 1.5 * delta))
    by apply frame_value.
  split; [exact Hv' |]. split; [| split].
  - intros Hd.
    pose proof (exp_nonpos_le_1 (- 1.5 * delta) ltac:(lra)) as Hk.
    pose proof (contract_between v tgt (exp (- 1.5 * delta)) ltac:(lra))
      as [Hbet Habs].
    rewrite <- Hv' in Hbet, Habs. split; [| exact Habs].
    assert (Htgt : tgt = 0 \/ tgt = 1) by apply target_cases.
    assert (Hv01 : 0 <= v <= 1) by exact Hv.
    unfold Rmin, Rmax in Hbet.
    destruct (Rle_dec v tgt); destruct Htgt; lra.
  - intros Hd. rewrite Hv', Hd, Rmult_0_r, exp_0. ring.
  - intros Hd. rewrite Hv'. apply expand_away.
    left. apply exp_pos_gt_1; lra.
Qed.

(** C9 (as the code has it).  From value 0 with the tree state set, after
    frames whose delta times add up to 3 the morph value is
    [1 - exp (-4.5)], which lies strictly between 0.988 and 0.99: within
    1.2% of 1.0 but not within 1%. *)
Theorem C9_value_after_three_units (s : R) (deltas : list R) (w : AppState) :
  value (syncData w) = 0 -> isTree w = true -> elapsed deltas = 3 ->
  let v := value (syncData (runFrames s deltas w)) in
  v = 1 - exp (- 1.5 * 3) /\ 0.988 < v < 0.99.
Proof.
  intros Hv Ht Hsum v.
  assert (Hval : v = 1 - exp (- 1.5 * 3)).
  { unfold v. rewrite runFrames_value, Hv, Hsum. unfold target. rewrite Ht. ring. }
  split; [exact Hval |].
  pose proof exp_neg_4_5_lower. pose proof exp_neg_4_5_upper. lra.
Qed.

Lemma C1_morph_damping_witness :
  let tgt := target halfwayTree in
  let v := fun k => value (syncData (Nat.iter k (frame 0 (1 / 60)) halfwayTree)) in
  (tgt = 0 \/ tgt = 1) /\
  value (syncData (frame 0 (1 / 60) halfwayTree))
    = tgt + (value (syncData halfwayTree) - tgt) * exp (- 1.5 * (1 / 60)) /\
  v 3%nat = tgt + (v 2%nat - tgt) * exp (- 1.5 * (1 / 60)) /\
  Rmin (v 2%nat) tgt <= v 3%nat <= Rmax (v 2%nat) tgt /\
  Rabs (v 3%nat - tgt) <= Rabs (v 2%nat - tgt) /\
  (v 0%nat <= tgt -> v 2%nat <= v 3%nat <= tgt) /\
  (tgt <= v 0%nat -> tgt <= v 3%nat <= v 2%nat) /\
  Rmin (v 0%nat) tgt <= v 2%nat <= Rmax (v 0%nat) tgt /\
  (0 <= v 0%nat <= 1 -> 0 <= v 2%nat <= 1).
Proof.
  apply (C1_morph_damping 0 (1 / 60) halfwayTree 2). lra.
Defined.

Lemma C2_unclamped_delta_witness :
  let tgt := target halfwayTree in
  let v := value (syncData halfwayTree) in
  let v' := value (syncData (frame 0 0 halfwayTree)) in
  v' = tgt + (v - tgt) * exp (- 1.5 * 0) /\
  (0 <= 0 -> 0 <= v' <= 1 /\ Rabs (v' - tgt) <= Rabs (v - tgt)) /\
  (0 = 0 -> v' = v) /\
  (0 < 0 -> Rabs (v - tgt) <= Rabs (v' - tgt)).
Proof.
  apply (C2_unclamped_delta 0 0 halfwayTree). cbn. lra.
Defined.

(** C2 fails as stated: from value 1/2 with target 1, a frame with delta
    time -1 gives [1 - exp 1.5 / 2 < 0], outside [[0,1]] and farther from
    the target. *)
Lemma C2_negative_delta_counterexample :
  0 <= value (syncData halfwayTree) <= 1 /\
  target halfwayTree = 1 /\
  value (syncData (frame 0 (- 1) halfwayTree)) < 0 /\
  ~ (0 <= value (syncData (frame 0 (- 1) halfwayTree)) <= 1) /\
  Rabs (value (syncData halfwayTree) - target halfwayTree)
    < Rabs (value (syncData (frame 0 (- 1) halfwayTree)) - target halfwayTree).
Proof.
  assert (Hv : value (syncData (frame 0 (- 1) halfwayTree)) = 1 - exp 1.5 / 2).
  { rewrite frame_value. cbn. replace (- 1.5 * - 1) with 1.5 by lra. lra. }
  pose proof (exp_ineq1_le 1.5) as Hexp.
  rewrite Hv. cbn.
  split; [lra |]. split; [reflexivity |]. split; [lra |]. split; [lra |].
  replace (1 / 2 - 1) with (- (1 / 2)) by lra.
  replace (1 - exp 1.5 / 2 - 1) with (- (exp 1.5 / 2)) by lra.
  rewrite !Rabs_Ropp, !Rabs_right by lra. lra.
Qed.

Lemma C9_value_after_three_units_witness :
  let v := value (syncData (runFrames 0 [1; 1; 1] scatteredToTree)) in
  v = 1 - exp (- 1.5 * 3) /\ 0.988 < v < 0.99.
Proof.
  apply (C9_value_after_three_units 0 [1; 1; 1] scatteredToTree).
  - reflexivity.
  - reflexivity.
  - cbn. lra.
Defined.

(** C9 fails as stated: after three frames of delta time 1 from value 0
    the value is below 0.99. *)
Lemma C9_three_units_counterexample :
  value (syncData scatteredToTree) = 0 /\
  target scatteredToTree = 1 /\
  elapsed [1; 1; 1] = 3 /\
  ~ (0.99 <= value (syncData (runFrames 0 [1; 1; 1] scatteredToTree))).
Proof.
  split; [reflexivity |]. split; [reflexivity |]. split; [cbn; lra |].
  rewrite runFrames_value.
  replace (elapsed [1; 1; 1]) with 3 by (cbn; lra).
  cbn. pose proof exp_neg_4_5_lower. lra.
Qed.

(** ** The gesture bridge *)

Lemma processResult_no_hand (result : GestureRecognizerResult) (w : AppState) :
  gestures result = [] \/ landmarks result = [] ->
  processResult result w
  = Normal (setSyncData
              {| value := value (syncData w); handX := handX (syncData w);
                 handY := handY (syncData w); hasHand := false |} w).
Proof.
  intros H. unfold processResult.
  destruct (gestures result) as [| g0 gss], (landmarks result) as [| lms lmss];
    try reflexivity.
  destruct H; discriminate.
Qed.

(** What a result with a hand, its landmark 9 and a gesture does. *)
Lemma processResult_hand (result : GestureRecognizerResult) (w : AppState)
      (g : Category) (gs : list Category) (gss : list (list Category))
      (lms : list NormalizedLandmark) (lmss : list (list NormalizedLandmark))
      (lm9 : NormalizedLandmark) :
  gestures result = (g :: gs) :: gss ->
  landmarks result = lms :: lmss ->
  nth_error lms 9 = Some lm9 ->
  let sd' :=
    {| value := value (syncData w);
       handX := THREE.lerp (handX (syncData w)) (1.0 - lm_x lm9) 0.1;
       handY := THREE.lerp (handY (syncData w)) (lm_y lm9) 0.1;
       hasHand := true |} in
  let b :=
    if (categoryName g =? "Open_Palm")%string then false
    else if (categoryName g =? "Closed_Fist")%string then true
    else stateIsTree w in
  processResult result w = Normal (setTreeState b (setSyncData sd' w)).
Proof.
  intros Hg Hl H9. unfold processResult. rewrite Hg, Hl, H9. cbn [nth_error].
  destruct (categoryName g =? "Open_Palm")%string; [reflexivity |].
  destruct (categoryName g =? "Closed_Fist")%string; [reflexivity |].
  destruct w as [b b' sd c]. reflexivity.
Qed.

(** The loop body never touches the rendered [isTree]. *)
Lemma processResult_isTree (result : GestureRecognizerResult) (w : AppState) :
  isTree (stateOf (processResult result w)) = isTree w.
Proof.
  unfold processResult.
  destruct (gestures result) as [| g0 gss]; [reflexivity |].
  destruct (landmarks result) as [| lms lmss]; [reflexivity |].
  destruct (nth_error lms 9) as [lm9 |]; [| reflexivity].
  destruct (nth_error g0 0) as [g |]; [| reflexivity].
  destruct (categoryName g =? "Open_Palm")%string; [reflexivity |].
  destruct (categoryName g =? "Closed_Fist")%string; reflexivity.
Qed.

(** One processed result keeps the smoothed hand position in the unit
    square, however the pass ends. *)
Lemma processResult_handInRange (result : GestureRecognizerResult) (w : AppState) :
  rawInRange result -> handInRange w ->
  handInRange (stateOf (processResult result w)).
Proof.
  intros Hraw Hw. unfold processResult.
  destruct (gestures result) as [| g0 gss]; [exact Hw |].
  destruct (landmarks result) as [| lms lmss] eqn:Hl; [exact Hw |].
  destruct (nth_error lms 9) as [lm9 |] eqn:H9; [| exact Hw].
  assert (Hlm : landmarkInRange lm9).
  { unfold rawInRange in Hraw. rewrite Hl in Hraw.
    apply Forall_inv in Hraw. rewrite Forall_forall in Hraw.
    apply Hraw. eapply nth_error_In. exact H9. }
  destruct Hlm as [Hx Hy]. destruct Hw as [HwX HwY].
  assert (Hnew : handInRange
            (setSyncData
               {| value := value (syncData w);
                  handX := THREE.lerp (handX (syncData w)) (1.0 - lm_x lm9) 0.1;
                  handY := THREE.lerp (handY (syncData w)) (lm_y lm9) 0.1;
                  hasHand := true |} w)).
  { split; cbn [syncData setSyncData handX handY]; apply lerp_unit; lra. }
  cbn zeta.
  destruct (nth_error g0 0) as [g |]; [| exact Hnew].
  cbn [stateOf].
  destruct (categoryName g =? "Open_Palm")%string; [exact Hnew |].
  destruct (categoryName g =? "Closed_Fist")%string; exact Hnew.
Qed.

Lemma targetPolar_range (hy : R) :
  0 <= hy <= 1 -> polarMin <= targetPolar hy <= polarMax.
Proof.
  intros [H0 H1]. unfold targetPolar, polarMin, polarMax.
  pose proof PI_RGT_0 as Hpi.
  assert (Hd : 0 < PI / 1.5 - PI / 4) by lra.
  split; nra.
Qed.

(** C4 (as the code has it).  For every detection result with a hand (a
    gesture and landmark 9 present), the pass ends normally and the label
    decides React's tree state: [Open_Palm] sets it to false (scattered,
    target 0), [Closed_Fist] to true (assembled, target 1), any other label
    leaves it as it was.  The frame callback keeps reading the target of
    the last render: a frame that runs before React has rendered again
    damps toward the old target, and the first frame after that render
    damps toward the new one; a target other than 0 or 1 is never read. *)
Theorem C4_gesture_sets_target
        (s delta : R)
        (result : GestureRecognizerResult) (w : AppState)
        (g : Category) (gs : list Category) (gss : list (list Category))
        (lms : list NormalizedLandmark) (lmss : list (list NormalizedLandmark))
        (lm9 : NormalizedLandmark) :
  gestures result = (g :: gs) :: gss ->
  landmarks result = lms :: lmss ->
  nth_error lms 9 = Some lm9 ->
  let w' := stateOf (processResult result w) in
  let b :=
    if (categoryName g =? "Open_Palm")%string then false
    else if (categoryName g =? "Closed_Fist")%string then true
    else stateIsTree w in
  let newTarget := if b then 1 else 0 in
  processResult result w = Normal w' /\
  stateIsTree w' = b /\
  target w' = target w /\
  value (syncData (frame s delta w'))
  = target w + (value (syncData w) - target w) * exp (- 1.5 * delta) /\
  target (render w') = newTarget /\
  value (syncData (frame s delta (render w')))
  = newTarget + (value (syncData w) - newTarget) * exp (- 1.5 * delta).
Proof.
  intros Hg Hl H9 w' b newTarget.
  pose proof (processResult_hand result w g gs gss lms lmss lm9 Hg Hl H9) as Hp.
  cbn zeta in Hp. fold b in Hp.
  assert (Hw' : w' = setTreeState b
                       (setSyncData
                          {| value := value (syncData w);
                             handX := THREE.lerp (handX (syncData w))
                                                 (1.0 - lm_x lm9) 0.1;
                             handY := THREE.lerp (handY (syncData w))
                                                 (lm_y lm9) 0.1;
                             hasHand := true |} w)).
  { unfold w'. rewrite Hp. reflexivity. }
  split; [rewrite Hp, Hw'; reflexivity |].
  split; [rewrite Hw'; reflexivity |].
  split; [rewrite Hw'; reflexivity |].
  split; [rewrite frame_value, Hw'; reflexivity |].
  split; [rewrite Hw'; reflexivity |].
  rewrite frame_value, Hw'. reflexivity.
Qed.

Lemma C4_gesture_sets_target_witness :
  let w := initialApp (Some sampleControls) in
  let w' := stateOf (processResult fistResult w) in
  processResult fistResult w = Normal w' /\
  stateIsTree w' = true /\
  target w' = target w /\
  value (syncData (frame 0 (1 / 60) w'))
  = target w + (value (syncData w) - target w) * exp (- 1.5 * (1 / 60)) /\
  target (render w') = 1 /\
  value (syncData (frame 0 (1 / 60) (render w')))
  = 1 + (value (syncData w) - 1) * exp (- 1.5 * (1 / 60)).
Proof.
  apply (C4_gesture_sets_target 0 (1 / 60)
           fistResult (initialApp (Some sampleControls))
           (mkCategory "Closed_Fist") [] []
           (repeat (mkLandmark (1 / 4) (3 / 4)) 21) []
           (mkLandmark (1 / 4) (3 / 4))
           eq_refl eq_refl eq_refl).
Defined.

(** C4 fails as stated: from the initial state (target 0), the frame that
    runs right after a [Closed_Fist] result, before React has rendered
    again, still reads target 0 and leaves the morph value at 0. *)
Lemma C4_next_frame_counterexample :
  let w := initialApp (Some sampleControls) in
  let w' := stateOf (processResult fistResult w) in
  target w = 0 /\
  processResult fistResult w = Normal w' /\
  ~ (target w' = 1) /\
  value (syncData (frame 0 (1 / 60) w')) = 0.
Proof.
  cbv zeta. split; [reflexivity |]. split; [reflexivity |]. split.
  - change (target (stateOf (processResult fistResult
                                (initialApp (Some sampleControls))))) with 0.
    lra.
  - rewrite frame_value.
    change (target (stateOf (processResult fistResult
                                (initialApp (Some sampleControls))))) with 0.
    change (value (syncData (stateOf (processResult fistResult
                                (initialApp (Some sampleControls)))))) with 0.
    ring.
Qed.

(** C5. For every detection result with no hand (no gesture entry or no
    landmark entry), the pass ends normally, sets [hasHand] to false and
    leaves [handX] and [handY] (and everything else) exactly as they
    were. *)
Theorem C5_no_hand_freezes_position
        (result : GestureRecognizerResult) (w : AppState) :
  gestures result = [] \/ landmarks result = [] ->
  exists w' : AppState,
    processResult result w = Normal w' /\
    hasHand (syncData w') = false /\
    handX (syncData w') = handX (syncData w) /\
    handY (syncData w') = handY (syncData w) /\
    value (syncData w') = value (syncData w) /\
    isTree w' = isTree w /\
    stateIsTree w' = stateIsTree w /\
    controls w' = controls w.
Proof.
  intros H. eexists. split; [apply processResult_no_hand; exact H |].
  repeat split.
Qed.

Lemma C5_no_hand_freezes_position_witness :
  exists w' : AppState,
    processResult noHandResult halfwayTree = Normal w' /\
    hasHand (syncData w') = false /\
    handX (syncData w') = handX (syncData halfwayTree) /\
    handY (syncData w') = handY (syncData halfwayTree) /\
    value (syncData w') = value (syncData halfwayTree) /\
    isTree w' = isTree halfwayTree /\
    stateIsTree w' = stateIsTree halfwayTree /\
    controls w' = controls halfwayTree.
Proof.
  apply (C5_no_hand_freezes_position noHandResult halfwayTree).
  left. reflexivity.
Defined.

(** ** The camera mapper *)


Lemma clamp_inside (lo hi a : R) : lo <= a <= hi -> clamp lo hi a = a.
Proof.
  intros [H1 H2]. unfold clamp.
  rewrite Rmin_right by exact H2. apply Rmax_right. exact H1.
Qed.


Lemma cameraControl_hand (s : R) (b : bool) (sd : SyncData) (c : OrbitControls) :
  hasHand sd = true ->
  cameraControl s b sd c
  = {| azimuthalAngle :=
         THREE.lerp (azimuthalAngle c) (targetAzimuth (handX sd)) 0.05;
       polarAngle :=
         clamp polarMin polarMax
               (THREE.lerp (polarAngle c) (targetPolar (handY sd)) 0.05);
       autoRotate := false |}.
Proof.
  intros Hh. unfold cameraControl. rewrite Hh. reflexivity.
Qed.

Lemma cameraControl_no_hand (s : R) (b : bool) (sd : SyncData) (c : OrbitControls) :
  hasHand sd = false ->
  cameraControl s b sd c
  = {| azimuthalAngle :=
         if b then azimuthalAngle c + s else azimuthalAngle c;
       polarAngle := polarAngle c;
       autoRotate := b |}.
Proof.
  intros Hh. unfold cameraControl. rewrite Hh.
  destruct b; reflexivity.
Qed.

Lemma frame_controls_hand (s delta : R) (w : AppState) (c : OrbitControls) :
  hasHand (syncData w) = true -> controls w = Some c ->
  controls (frame s delta w)
  = Some {| azimuthalAngle :=
              THREE.lerp (azimuthalAngle c)
                         (targetAzimuth (handX (syncData w))) 0.05;
            polarAngle :=
              clamp polarMin polarMax
                    (THREE.lerp (polarAngle c)
                                (targetPolar (handY (syncData w))) 0.05);
            autoRotate := false |}.
Proof.
  intros Hh Hc. unfold frame. cbn [controls]. rewrite Hc. cbn [option_map].
  rewrite cameraControl_hand by exact Hh. reflexivity.
Qed.

(** With the polar angle and the hand height in range, the clamp of the
    polar setter does nothing and the frame's blend is plain arithmetic. *)
Lemma frame_controls_hand_in_range
      (s delta : R) (w : AppState) (c : OrbitControls) :
  hasHand (syncData w) = true -> controls w = Some c ->
  0 <= handY (syncData w) <= 1 ->
  polarMin <= polarAngle c <= polarMax ->
  let tA := targetAzimuth (handX (syncData w)) in
  let tP := targetPolar (handY (syncData w)) in
  controls (frame s delta w)
  = Some {| azimuthalAngle := azimuthalAngle c + 0.05 * (tA - azimuthalAngle c);
            polarAngle := polarAngle c + 0.05 * (tP - polarAngle c);
            autoRotate := false |}.
Proof.
  intros Hh Hc Hy Hpol tA tP.
  rewrite (frame_controls_hand s delta w c Hh Hc). fold tA tP.
  pose proof (targetPolar_range _ Hy) as HtP. fold tP in HtP.
  rewrite clamp_inside by (unfold THREE.lerp; lra).
  unfold THREE.lerp. f_equal. f_equal; lra.
Qed.

(** C3. While a hand is present, a frame maps the hand position to
    [targetAzimuth = (handX - 0.5) * PI] (so 0, 0.5 and 1 give [-PI/2], 0
    and [PI/2]) and to
    [targetPolar = polarMin + handY * (polarMax - polarMin)] with
    [polarMin = PI/4] and [polarMax = PI/1.5], which lies in
    [[polarMin, polarMax]] for every [handY] in [[0,1]].  With the hand
    height in [[0,1]] and the polar angle of the mounted controls inside
    its limits, the frame moves each angle by 0.05 of its distance to the
    target: the new angle is [current + 0.05 * (target - current)], and
    the polar angle stays inside its limits. *)
Theorem C3_camera_mapping
        (s delta : R) (w : AppState) (c : OrbitControls) :
  hasHand (syncData w) = true ->
  controls w = Some c ->
  0 <= handY (syncData w) <= 1 ->
  polarMin <= polarAngle c <= polarMax ->
  let tA := targetAzimuth (handX (syncData w)) in
  let tP := targetPolar (handY (syncData w)) in
  tA = (handX (syncData w) - 0.5) * PI /\
  targetAzimuth 0 = - (PI / 2) /\
  targetAzimuth 0.5 = 0 /\
  targetAzimuth 1 = PI / 2 /\
  polarMin = PI / 4 /\
  polarMax = PI / 1.5 /\
  tP = polarMin + handY (syncData w) * (polarMax - polarMin) /\
  (forall hy : R, 0 <= hy <= 1 -> polarMin <= targetPolar hy <= polarMax) /\
  exists c' : OrbitControls,
    controls (frame s delta w) = Some c' /\
    azimuthalAngle c' = azimuthalAngle c + 0.05 * (tA - azimuthalAngle c) /\
    polarAngle c' = polarAngle c + 0.05 * (tP - polarAngle c) /\
    azimuthalAngle c' - tA = 0.95 * (azimuthalAngle c - tA) /\
    polarAngle c' - tP = 0.95 * (polarAngle c - tP) /\
    polarMin <= polarAngle c' <= polarMax.
Proof.
  intros Hh Hc Hy Hpol tA tP.
  split; [reflexivity |].
  split; [unfold targetAzimuth; lra |].
  split; [unfold targetAzimuth; lra |].
  split; [unfold targetAzimuth; lra |].
  split; [reflexivity |]. split; [reflexivity |].
  split; [reflexivity |].
  split; [exact targetPolar_range |].
  eexists. split; [exact (frame_controls_hand_in_range s delta w c Hh Hc Hy Hpol) |].
  cbn [azimuthalAngle polarAngle]. fold tA tP.
  pose proof (targetPolar_range _ Hy) as HtP. fold tP in HtP.
  repeat split; lra.
Qed.

Lemma C3_camera_mapping_witness :
  let w := stateOf (processResult fistResult (initialApp (Some sampleControls))) in
  let tA := targetAzimuth (handX (syncData w)) in
  let tP := targetPolar (handY (syncData w)) in
  tA = (handX (syncData w) - 0.5) * PI /\
  targetAzimuth 0 = - (PI / 2) /\
  targetAzimuth 0.5 = 0 /\
  targetAzimuth 1 = PI / 2 /\
  polarMin = PI / 4 /\
  polarMax = PI / 1.5 /\
  tP = polarMin + handY (syncData w) * (polarMax - polarMin) /\
  (forall hy : R, 0 <= hy <= 1 -> polarMin <= targetPolar hy <= polarMax) /\
  exists c' : OrbitControls,
    controls (frame 0 (1 / 60) w) = Some c' /\
    azimuthalAngle c' = 0 + 0.05 * (tA - 0) /\
    polarAngle c' = PI / 2 + 0.05 * (tP - PI / 2) /\
    azimuthalAngle c' - tA = 0.95 * (0 - tA) /\
    polarAngle c' - tP = 0.95 * (PI / 2 - tP) /\
    polarMin <= polarAngle c' <= polarMax.
Proof.
  apply (C3_camera_mapping 0 (1 / 60)
           (stateOf (processResult fistResult (initialApp (Some sampleControls))))
           sampleControls).
  - reflexivity.
  - reflexivity.
  - cbn. unfold THREE.lerp. lra.
  - unfold polarMin, polarMax. cbn. pose proof PI_RGT_0. lra.
Defined.

(** C6 (as the code has it).  In every frame with mounted controls the
    auto-rotation flag is set to "no hand present and tree state
    selected" ([isTree], target 1), whatever the flag was before and
    whatever the morph value is: with a hand it is false; with no hand it
    is [isTree], the polar angle stays, and the azimuth advances by the
    constant auto-rotate step exactly when [isTree] holds. *)
Theorem C6_auto_rotate_state_based
        (s delta : R) (w : AppState) (c : OrbitControls) :
  controls w = Some c ->
  exists c' : OrbitControls,
    controls (frame s delta w) = Some c' /\
    autoRotate c' = negb (hasHand (syncData w)) && isTree w /\
    (hasHand (syncData w) = false ->
     azimuthalAngle c'
     = (if isTree w then azimuthalAngle c + s else azimuthalAngle c) /\
     polarAngle c' = polarAngle c).
Proof.
  intros Hc. unfold frame. cbn [controls syncData]. rewrite Hc. cbn [option_map].
  eexists. split; [reflexivity |].
  destruct (hasHand (syncData w)) eqn:Hh.
  - rewrite cameraControl_hand by reflexivity.
    split; [reflexivity | discriminate].
  - rewrite cameraControl_no_hand by reflexivity.
    split; [reflexivity |]. intros _. split; reflexivity.
Qed.

Lemma C6_auto_rotate_state_based_witness :
  exists c' : OrbitControls,
    controls (frame (1 / 100) (1 / 60) halfwayTree) = Some c' /\
    autoRotate c' = true /\
    azimuthalAngle c' = azimuthalAngle sampleControls + 1 / 100 /\
    polarAngle c' = polarAngle sampleControls.
Proof.
  destruct (C6_auto_rotate_state_based (1 / 100) (1 / 60) halfwayTree
              sampleControls eq_refl) as (c' & Hc & Hflag & Hrest).
  destruct (Hrest eq_refl) as [Haz Hpol].
  exists c'. split; [exact Hc |]. split; [exact Hflag |].
  split; [exact Haz | exact Hpol].
Defined.

(** C6 fails as stated, with "Assembled" the state of a morph value near
    1: right after the tree state is selected from a fully scattered
    formation, a frame with no hand turns auto-rotation on while the value
    is still below 0.03; and right after the scattered state is selected
    from a fully assembled formation, a frame with no hand turns it off
    while the value is still above 0.97. *)
Lemma C6_assembled_state_counterexample :
  (hasHand (syncData scatteredToTree) = false /\
   value (syncData (frame 0 (1 / 60) scatteredToTree)) < 0.03 /\
   option_map autoRotate (controls (frame 0 (1 / 60) scatteredToTree))
   = Some true) /\
  (hasHand (syncData assembledToScatter) = false /\
   0.97 < value (syncData (frame 0 (1 / 60) assembledToScatter)) /\
   option_map autoRotate (controls (frame 0 (1 / 60) assembledToScatter))
   = Some false).
Proof.
  pose proof (exp_ineq1_le (- 1.5 * (1 / 60))) as Hexp.
  split; (split; [reflexivity |]); (split; [| reflexivity]);
    rewrite frame_value; cbn; lra.
Qed.

(** ** The unit-square invariant of the smoothed hand position *)

Lemma step_handInRange (s : R) (w w' : AppState) :
  step s w w' -> handInRange w -> handInRange w'.
Proof.
  intros Hstep Hw. destruct Hstep as [result w Hraw | delta w | w | w].
  - apply processResult_handInRange; assumption.
  - exact Hw.
  - exact Hw.
  - exact Hw.
Qed.

Lemma initialApp_handInRange (c : option OrbitControls) :
  handInRange (initialApp c).
Proof.
  unfold handInRange. cbn. lra.
Qed.

Lemma reachable_handInRange (s : R) (w : AppState) :
  reachable s w -> handInRange w.
Proof.
  intros Hr. induction Hr as [c | w w' _ IH Hstep].
  - apply initialApp_handInRange.
  - exact (step_handInRange s w w' Hstep IH).
Qed.

(** C10. In every state reached from the initial one ([handX = handY =
    0.5]) by detection results with landmark coordinates in [[0,1]],
    frames and toggles, the smoothed [handX] and [handY] lie in [[0,1]],
    and they still do after one more such result (a hand-present result
    moves them by [lerp] toward the mirrored landmark, a no-hand result
    leaves them unchanged).  [targetPolar] therefore lies in
    [[polarMin, polarMax]] in every reached state, although the mapping
    itself is not clamped: at [handY = 2] it exceeds [polarMax]. *)
Theorem C10_hand_stays_in_unit_square
        (s : R) (w : AppState) (result : GestureRecognizerResult) :
  reachable s w -> rawInRange result ->
  let w' := stateOf (processResult result w) in
  (0 <= handX (syncData w) <= 1 /\ 0 <= handY (syncData w) <= 1) /\
  (0 <= handX (syncData w') <= 1 /\ 0 <= handY (syncData w') <= 1) /\
  ((gestures result = [] \/ landmarks result = []) ->
   handX (syncData w') = handX (syncData w) /\
   handY (syncData w') = handY (syncData w)) /\
  polarMin <= targetPolar (handY (syncData w)) <= polarMax /\
  polarMax < targetPolar 2.
Proof.
  intros Hr Hraw w'.
  pose proof (reachable_handInRange s w Hr) as Hw.
  pose proof (processResult_handInRange result w Hraw Hw) as Hw'.
  split; [exact Hw |]. split; [exact Hw' |]. split; [| split].
  - intros Hno. unfold w'. rewrite (processResult_no_hand result w Hno).
    split; reflexivity.
  - apply targetPolar_range. exact (proj2 Hw).
  - unfold targetPolar, polarMax. pose proof PI_RGT_0. lra.
Qed.

Lemma fistResult_rawInRange : rawInRange fistResult.
Proof.
  unfold rawInRange, fistResult. cbn [landmarks].
  constructor; [| constructor].
  apply Forall_forall. intros lm Hin.
  apply repeat_spec in Hin. subst lm.
  unfold landmarkInRange. cbn. lra.
Qed.

Lemma C10_hand_stays_in_unit_square_witness :
  let w := frame 0 (1 / 60)
                 (stateOf (processResult fistResult (initialApp None))) in
  let w' := stateOf (processResult fistResult w) in
  (0 <= handX (syncData w) <= 1 /\ 0 <= handY (syncData w) <= 1) /\
  (0 <= handX (syncData w') <= 1 /\ 0 <= handY (syncData w') <= 1) /\
  ((gestures fistResult = [] \/ landmarks fistResult = []) ->
   handX (syncData w') = handX (syncData w) /\
   handY (syncData w') = handY (syncData w)) /\
  polarMin <= targetPolar (handY (syncData w)) <= polarMax /\
  polarMax < targetPolar 2.
Proof.
  apply (C10_hand_stays_in_unit_square 0
           (frame 0 (1 / 60)
                  (stateOf (processResult fistResult (initialApp None))))
           fistResult).
  - eapply reachable_step; [| apply step_frame].
    eapply reachable_step; [apply reachable_init |].
    apply step_detect. exact fistResult_rawInRange.
  - exact fistResult_rawInRange.
Defined.

(** ** The remaining generators *)

(** A point [(q cos a, _, q sin a)] is at horizontal distance [|q|]. *)
Lemma ring_lengthXZ (q a b : R) :
  THREE.lengthXZ (THREE.mkVector3 (q * cos a) b (q * sin a)) = Rabs q.
Proof.
  unfold THREE.lengthXZ. cbn [THREE.x THREE.z].
  pose proof (cos2_sin2_mul a) as Ha.
  replace (q * cos a * (q * cos a) + q * sin a * (q * sin a))
    with (Rsqr q * (cos a * cos a + sin a * sin a)) by (unfold Rsqr; ring).
  rewrite Ha, Rmult_1_r. apply sqrt_Rsqr_abs.
Qed.

Lemma sqrt_unit (a : R) : 0 <= a <= 1 -> 0 <= sqrt a <= 1.
Proof.
  intros [H0 H1]. split; [apply sqrt_pos |].
  rewrite <- sqrt_1. apply sqrt_le_1; lra.
Qed.

(** X1. [pointInCone] stays inside the cone: for [h > 0], [r >= 0] and
    draws in [[0,1]] the height is in [[-h/2, h/2]] and the horizontal
    distance is [sqrt u3 * r * (1 - u1)], at most the cone's radius at
    that height, [r * (h/2 - y) / h]. *)
Theorem X1_pointInCone_inside (h r u1 u2 u3 : R) :
  0 < h -> 0 <= r -> 0 <= u1 <= 1 -> 0 <= u3 <= 1 ->
  let p := pointInCone h r u1 u2 u3 in
  - h / 2 <= THREE.y p <= h / 2 /\
  THREE.lengthXZ p = sqrt u3 * (r * (1 - u1)) /\
  THREE.lengthXZ p <= r * (h / 2 - THREE.y p) / h /\
  THREE.lengthXZ p <= r.
Proof.
  intros Hh Hr Hu1 Hu3 p.
  pose proof (sqrt_unit u3 Hu3) as Hs.
  assert (HrAt : r * (h - u1 * h) / h = r * (1 - u1)) by (field; lra).
  assert (Hlen : THREE.lengthXZ p = sqrt u3 * (r * (1 - u1))).
  { unfold p, pointInCone. rewrite ring_lengthXZ, HrAt.
    apply Rabs_right. apply Rle_ge. apply Rmult_le_pos; [lra |].
    apply Rmult_le_pos; lra. }
  assert (Hy : THREE.y p = u1 * h - h / 2) by reflexivity.
  assert (Hq : 0 <= r * (1 - u1)) by (apply Rmult_le_pos; lra).
  split; [rewrite Hy; split; nra |].
  split; [exact Hlen |]. split.
  - rewrite Hlen, Hy.
    replace (r * (h / 2 - (u1 * h - h / 2)) / h) with (r * (1 - u1))
      by (field; lra).
    nra.
  - rewrite Hlen. nra.
Qed.

Lemma X1_pointInCone_inside_witness :
  let p := pointInCone TREE_HEIGHT TREE_RADIUS (1 / 4) (1 / 3) (1 / 2) in
  - TREE_HEIGHT / 2 <= THREE.y p <= TREE_HEIGHT / 2 /\
  THREE.lengthXZ p = sqrt (1 / 2) * (TREE_RADIUS * (1 - 1 / 4)) /\
  THREE.lengthXZ p <= TREE_RADIUS * (TREE_HEIGHT / 2 - THREE.y p) / TREE_HEIGHT /\
  THREE.lengthXZ p <= TREE_RADIUS.
Proof.
  apply (X1_pointInCone_inside TREE_HEIGHT TREE_RADIUS (1 / 4) (1 / 3) (1 / 2));
    unfold TREE_HEIGHT, TREE_RADIUS; lra.
Defined.

Lemma unit_fraction (i count : R) :
  0 < count -> 0 <= i <= count -> 0 <= i / count <= 1.
Proof.
  intros Hc [Hi0 Hi1]. split.
  - apply Rmult_le_pos; [lra | left; apply Rinv_0_lt_compat; lra].
  - apply Rmult_le_reg_r with count; [lra |].
    unfold Rdiv. rewrite Rmult_assoc, Rinv_l by lra. lra.
Qed.

Lemma getSpiralPos_lengthXZ (i count h r : R) :
  0 < count -> 0 <= i <= count -> 0 <= r ->
  THREE.lengthXZ (getSpiralPos i count h r) = r * (1 - i / count) + 0.2.
Proof.
  intros Hc Hi Hr. pose proof (unit_fraction i count Hc Hi) as Ht.
  unfold getSpiralPos. rewrite ring_lengthXZ. apply Rabs_right.
  assert (0 <= r * (1 - i / count)) by (apply Rmult_le_pos; lra). lra.
Qed.

(** X2. [getSpiralPos] runs 0.2 outside the cone: for [count > 0],
    [0 <= i <= count] and [r >= 0] the point is at height
    [(i / count) * h - h / 2] and horizontal distance
    [r * (1 - i / count) + 0.2], between 0.2 and [r + 0.2]; for [h >= 0]
    its height is in [[-h/2, h/2]]. *)
Theorem X2_getSpiralPos_on_offset_cone (i count h r : R) :
  0 < count -> 0 <= i <= count -> 0 <= r ->
  let p := getSpiralPos i count h r in
  THREE.y p = (i / count) * h - h / 2 /\
  THREE.lengthXZ p = r * (1 - i / count) + 0.2 /\
  0.2 <= THREE.lengthXZ p <= r + 0.2 /\
  (0 <= h -> - h / 2 <= THREE.y p <= h / 2).
Proof.
  intros Hc Hi Hr p.
  pose proof (unit_fraction i count Hc Hi) as Ht.
  pose proof (getSpiralPos_lengthXZ i count h r Hc Hi Hr) as Hlen.
  fold p in Hlen.
  assert (Hq : 0 <= r * (1 - i / count)) by (apply Rmult_le_pos; lra).
  split; [reflexivity |]. split; [exact Hlen |]. split.
  - rewrite Hlen. split; nra.
  - intros Hh. change (THREE.y p) with (i / count * h - h / 2). split; nra.
Qed.

Lemma X2_getSpiralPos_on_offset_cone_witness :
  let p := getSpiralPos 150 300 TREE_HEIGHT TREE_RADIUS in
  THREE.y p = (150 / 300) * TREE_HEIGHT - TREE_HEIGHT / 2 /\
  THREE.lengthXZ p = TREE_RADIUS * (1 - 150 / 300) + 0.2 /\
  0.2 <= THREE.lengthXZ p <= TREE_RADIUS + 0.2 /\
  (0 <= TREE_HEIGHT -> - TREE_HEIGHT / 2 <= THREE.y p <= TREE_HEIGHT / 2).
Proof.
  apply (X2_getSpiralPos_on_offset_cone 150 300 TREE_HEIGHT TREE_RADIUS);
    unfold TREE_RADIUS; lra.
Defined.

(** X3. Consecutive garland points are evenly spaced: from index [i] to
    [i + 1] the height rises by [h / count] and, inside the index range,
    the horizontal distance shrinks by [r / count]. *)
Theorem X3_getSpiralPos_even_spacing (i count h r : R) :
  0 < count -> 0 <= i -> i + 1 <= count -> 0 <= r ->
  THREE.y (getSpiralPos (i + 1) count h r) - THREE.y (getSpiralPos i count h r)
  = h / count /\
  THREE.lengthXZ (getSpiralPos i count h r)
  - THREE.lengthXZ (getSpiralPos (i + 1) count h r)
  = r / count.
Proof.
  intros Hc Hi0 Hi1 Hr. split.
  - cbn [getSpiralPos THREE.y]. field. lra.
  - rewrite !getSpiralPos_lengthXZ by lra. field. lra.
Qed.

Lemma X3_getSpiralPos_even_spacing_witness :
  THREE.y (getSpiralPos (7 + 1) 300 TREE_HEIGHT TREE_RADIUS)
  - THREE.y (getSpiralPos 7 300 TREE_HEIGHT TREE_RADIUS)
  = TREE_HEIGHT / 300 /\
  THREE.lengthXZ (getSpiralPos 7 300 TREE_HEIGHT TREE_RADIUS)
  - THREE.lengthXZ (getSpiralPos (7 + 1) 300 TREE_HEIGHT TREE_RADIUS)
  = TREE_RADIUS / 300.
Proof.
  apply (X3_getSpiralPos_even_spacing 7 300 TREE_HEIGHT TREE_RADIUS);
    unfold TREE_RADIUS; lra.
Defined.

(** X4. [getSurfaceDistributedPos] puts an ornament on the scaled cone: for
    a draw [u] in [[0,1]] and [rScale >= 0] the point is at horizontal
    distance [TREE_RADIUS * rScale * sqrt u], whose square is linear in
    [u], at the height [(1 - sqrt u) * TREE_HEIGHT - TREE_HEIGHT / 2],
    which is inside the tree's height range. *)
Theorem X4_getSurfaceDistributedPos_on_cone (rScale u ua : R) :
  0 <= rScale -> 0 <= u <= 1 ->
  let p := getSurfaceDistributedPos rScale u ua in
  THREE.lengthXZ p = TREE_RADIUS * rScale * sqrt u /\
  THREE.lengthXZ p * THREE.lengthXZ p = (TREE_RADIUS * rScale) ^ 2 * u /\
  THREE.y p = (1 - sqrt u) * TREE_HEIGHT - TREE_HEIGHT / 2 /\
  - TREE_HEIGHT / 2 <= THREE.y p <= TREE_HEIGHT / 2.
Proof.
  intros Hs Hu p. pose proof (sqrt_unit u Hu) as Hq.
  assert (Hlen : THREE.lengthXZ p = TREE_RADIUS * rScale * sqrt u).
  { unfold p, getSurfaceDistributedPos.
    rewrite pointOnConeSurface_lengthXZ.
    replace (1 - (1 - sqrt u)) with (sqrt u) by ring.
    apply Rabs_right. apply Rle_ge.
    apply Rmult_le_pos; [| lra].
    apply Rmult_le_pos; [unfold TREE_RADIUS; lra | exact Hs]. }
  split; [exact Hlen |]. split; [| split].
  - rewrite Hlen.
    replace (TREE_RADIUS * rScale * sqrt u * (TREE_RADIUS * rScale * sqrt u))
      with ((TREE_RADIUS * rScale) ^ 2 * (sqrt u * sqrt u)) by ring.
    rewrite sqrt_sqrt by lra. reflexivity.
  - reflexivity.
  - change (THREE.y p) with ((1 - sqrt u) * TREE_HEIGHT - TREE_HEIGHT / 2).
    unfold TREE_HEIGHT. split; nra.
Qed.

Lemma X4_getSurfaceDistributedPos_on_cone_witness :
  let p := getSurfaceDistributedPos 0.9 (1 / 4) (1 / 3) in
  THREE.lengthXZ p = TREE_RADIUS * 0.9 * sqrt (1 / 4) /\
  THREE.lengthXZ p * THREE.lengthXZ p = (TREE_RADIUS * 0.9) ^ 2 * (1 / 4) /\
  THREE.y p = (1 - sqrt (1 / 4)) * TREE_HEIGHT - TREE_HEIGHT / 2 /\
  - TREE_HEIGHT / 2 <= THREE.y p <= TREE_HEIGHT / 2.
Proof.
  apply (X4_getSurfaceDistributedPos_on_cone 0.9 (1 / 4) (1 / 3)); lra.
Defined.

(** X5. [getGiftPos] puts a gift in a ring around the foot of the tree: for
    draws in [[0,1]] the horizontal distance is [2.5 + 4 * u1], between
    2.5 and 6.5, and the height is between -5.4 and -3.9, inside the
    tree's height range. *)
Theorem X5_getGiftPos_ring (u1 u2 u3 : R) :
  0 <= u1 <= 1 -> 0 <= u3 <= 1 ->
  let p := getGiftPos u1 u2 u3 in
  THREE.lengthXZ p = 2.5 + u1 * 4 /\
  2.5 <= THREE.lengthXZ p <= 6.5 /\
  -5.4 <= THREE.y p <= -3.9 /\
  - TREE_HEIGHT / 2 <= THREE.y p <= TREE_HEIGHT / 2.
Proof.
  intros Hu1 Hu3 p.
  assert (Hlen : THREE.lengthXZ p = 2.5 + u1 * 4).
  { unfold p, getGiftPos. rewrite ring_lengthXZ.
    rewrite Rabs_right by lra. lra. }
  assert (Hy : THREE.y p = - TREE_HEIGHT / 2 + 0.6 + u3 * 1.5) by reflexivity.
  unfold TREE_HEIGHT in *.
  split; [exact Hlen |]. rewrite Hlen, Hy. repeat split; lra.
Qed.

Lemma X5_getGiftPos_ring_witness :
  let p := getGiftPos (1 / 2) (1 / 3) (1 / 4) in
  THREE.lengthXZ p = 2.5 + 1 / 2 * 4 /\
  2.5 <= THREE.lengthXZ p <= 6.5 /\
  -5.4 <= THREE.y p <= -3.9 /\
  - TREE_HEIGHT / 2 <= THREE.y p <= TREE_HEIGHT / 2.
Proof.
  apply (X5_getGiftPos_ring (1 / 2) (1 / 3) (1 / 4)); lra.
Defined.

(** X6. The star outline alternates between the outer radius 1 (even
    index) and the inner radius 0.5 (odd index), and has ten points. *)
Theorem X6_starPoint_radius (i : nat) :
  sqrt (x2 (starPoint i) * x2 (starPoint i) + y2 (starPoint i) * y2 (starPoint i))
  = (if Nat.even i then 1 else 0.5) /\
  List.length starPoints = 10%nat.
Proof.
  split; [| reflexivity].
  unfold starPoint. cbn [x2 y2].
  set (ang := INR i / 10 * PI * 2).
  pose proof (cos2_sin2_mul ang) as Ha.
  assert (Hpar : Nat.eqb (i mod 2) 0 = Nat.even i).
  { destruct (Nat.even i) eqn:He.
    - apply Nat.even_spec in He. destruct He as [k Hk]. subst i.
      rewrite Nat.mul_comm, Nat.Div0.mod_mul. reflexivity.
    - assert (Ho : Nat.odd i = true)
        by (rewrite <- Nat.negb_even, He; reflexivity).
      apply Nat.odd_spec in Ho. destruct Ho as [k Hk]. subst i.
      rewrite Nat.add_comm, Nat.mul_comm, Nat.Div0.mod_add. reflexivity. }
  rewrite Hpar.
  destruct (Nat.even i).
  - replace (cos ang * 1 * (cos ang * 1) + sin ang * 1 * (sin ang * 1))
      with (1 * 1) by lra.
    apply sqrt_square. lra.
  - replace (cos ang * 0.5 * (cos ang * 0.5) + sin ang * 0.5 * (sin ang * 0.5))
      with (0.5 * 0.5) by nra.
    apply sqrt_square. lra.
Qed.

(** ** Easing and the per-instance transforms *)

Lemma lerp_between (a b t : R) :
  0 <= t <= 1 -> Rmin a b <= THREE.lerp a b t <= Rmax a b.
Proof.
  intros [Ht0 Ht1]. unfold THREE.lerp, Rmin, Rmax.
  destruct (Rle_dec a b) as [Hab | Hab]; split; nra.
Qed.

Lemma easeOutCubic_unit (p : R) : 0 <= p <= 1 -> 0 <= easeOutCubic p <= 1.
Proof.
  intros [H0 H1]. unfold easeOutCubic.
  assert (Hq : 0 <= 1.0 - p <= 1) by lra.
  set (q := 1.0 - p) in *. cbn [pow].
  assert (0 <= q * q <= 1) by nra.
  split; nra.
Qed.

(** X7. On [[0,1]] the cubic ease-out maps 0 to 0 and 1 to 1, stays in
    [[0,1]], is monotone and never lags behind the linear progress. *)
Theorem X7_easeOutCubic_shape (p q : R) :
  0 <= p -> p <= q -> q <= 1 ->
  easeOutCubic 0 = 0 /\
  easeOutCubic 1 = 1 /\
  0 <= easeOutCubic p <= 1 /\
  easeOutCubic p <= easeOutCubic q /\
  p <= easeOutCubic p.
Proof.
  intros Hp Hpq Hq.
  split; [unfold easeOutCubic; lra |].
  split; [unfold easeOutCubic; lra |].
  split; [apply easeOutCubic_unit; lra |].
  unfold easeOutCubic. cbn [pow].
  set (a := 1.0 - p). set (b := 1.0 - q).
  assert (Ha : 0 <= a <= 1) by (unfold a; lra).
  assert (Hb : 0 <= b <= a) by (unfold a, b; lra).
  assert (Haa : 0 <= a * a <= 1) by nra.
  assert (Hbb : 0 <= b * b <= a * a) by nra.
  split.
  - assert (b * (b * b) <= a * (a * a)) by nra. lra.
  - replace p with (1 - a) by (unfold a; lra). nra.
Qed.

Lemma X7_easeOutCubic_shape_witness :
  easeOutCubic 0 = 0 /\
  easeOutCubic 1 = 1 /\
  0 <= easeOutCubic (1 / 4) <= 1 /\
  easeOutCubic (1 / 4) <= easeOutCubic (1 / 2) /\
  1 / 4 <= easeOutCubic (1 / 4).
Proof.
  apply (X7_easeOutCubic_shape (1 / 4) (1 / 2)); lra.
Defined.

(** X8. For a morph progress in [[0,1]] the frame callback of
    [MorphingInstances] places an instance between its two endpoints in x
    and z, within 0.1 of the blend in y (the floating offset), and keeps
    the item's scale; at progress 0 the blend is the scattered position and
    at progress 1 the tree position. *)
Theorem X8_instanceTransform_between
        (time progress i : R) (item : InstanceItem) :
  0 <= progress <= 1 ->
  let p := position (instanceTransform time progress i item) in
  let s := scatterPos item in
  let t := treePos item in
  Rmin (THREE.x s) (THREE.x t) <= THREE.x p <= Rmax (THREE.x s) (THREE.x t) /\
  Rmin (THREE.z s) (THREE.z t) <= THREE.z p <= Rmax (THREE.z s) (THREE.z t) /\
  Rmin (THREE.y s) (THREE.y t) - 0.1 <= THREE.y p
    <= Rmax (THREE.y s) (THREE.y t) + 0.1 /\
  position (instanceTransform time 0 i item)
  = THREE.mkVector3 (THREE.x s) (THREE.y s + sin (time + i * 10) * 0.1) (THREE.z s) /\
  position (instanceTransform time 1 i item)
  = THREE.mkVector3 (THREE.x t) (THREE.y t + sin (time + i * 10) * 0.1) (THREE.z t) /\
  scalar (instanceTransform time progress i item) = scale item.
Proof.
  intros Hp p s t.
  pose proof (easeOutCubic_unit progress Hp) as He.
  pose proof (SIN_bound (time + i * 10)) as [Hs0 Hs1].
  split; [apply lerp_between; exact He |].
  split; [apply lerp_between; exact He |].
  split.
  - pose proof (lerp_between (THREE.y s) (THREE.y t) (easeOutCubic progress) He)
      as [Hl Hu].
    unfold p, instanceTransform. cbn [position THREE.y]. fold s t. lra.
  - unfold instanceTransform, easeOutCubic, THREE.lerp. cbn [position scalar].
    fold s t. repeat split; f_equal; lra.
Qed.

Lemma X8_instanceTransform_between_witness :
  let item := makeInstance 0.35 (getGiftPos 0 0 0) 0 0 0 0 0 0 in
  let p := position (instanceTransform 0 (1 / 2) 3 item) in
  let s := scatterPos item in
  let t := treePos item in
  Rmin (THREE.x s) (THREE.x t) <= THREE.x p <= Rmax (THREE.x s) (THREE.x t) /\
  Rmin (THREE.z s) (THREE.z t) <= THREE.z p <= Rmax (THREE.z s) (THREE.z t) /\
  Rmin (THREE.y s) (THREE.y t) - 0.1 <= THREE.y p
    <= Rmax (THREE.y s) (THREE.y t) + 0.1 /\
  position (instanceTransform 0 0 3 item)
  = THREE.mkVector3 (THREE.x s) (THREE.y s + sin (0 + 3 * 10) * 0.1) (THREE.z s) /\
  position (instanceTransform 0 1 3 item)
  = THREE.mkVector3 (THREE.x t) (THREE.y t + sin (0 + 3 * 10) * 0.1) (THREE.z t) /\
  scalar (instanceTransform 0 (1 / 2) 3 item) = scale item.
Proof.
  apply (X8_instanceTransform_between 0 (1 / 2) 3
           (makeInstance 0.35 (getGiftPos 0 0 0) 0 0 0 0 0 0)).
  lra.
Defined.

(** X9. An instance built for a tree position inside the tree's height
    range, with draws in [[0,1]] and a group scale [scale0 >= 0], has a
    scale between [0.4 * scale0] and [1.2 * scale0] (smaller toward the
    top), a scattered position within [0.8 * SCATTER_RADIUS] of the
    origin, and the given tree position. *)
Theorem X9_makeInstance_bounds
        (scale0 : R) (treeP : THREE.Vector3) (u v w r1 r2 r3 : R) :
  0 <= scale0 ->
  - TREE_HEIGHT / 2 <= THREE.y treeP <= TREE_HEIGHT / 2 ->
  0 <= w <= 1 -> 0 <= r3 <= 1 ->
  let item := makeInstance scale0 treeP u v w r1 r2 r3 in
  0.4 * scale0 <= scale item <= 1.2 * scale0 /\
  scale item
  = scale0 * (1 - (THREE.y treeP + TREE_HEIGHT / 2) / TREE_HEIGHT / 2)
    * (0.8 + r3 * 0.4) /\
  THREE.length (scatterPos item) <= SCATTER_RADIUS * 0.8 /\
  treePos item = treeP.
Proof.
  intros Hs Hy Hw Hr3 item. unfold TREE_HEIGHT in *.
  assert (Hscale : scale item
            = scale0 * (1 - (THREE.y treeP + 12 / 2) / 12 / 2) * (0.8 + r3 * 0.4)).
  { unfold item, makeInstance, TREE_HEIGHT. cbn [scale]. lra. }
  split; [| split; [exact Hscale | split; [| reflexivity]]].
  - rewrite Hscale.
    set (f := 1 - (THREE.y treeP + 12 / 2) / 12 / 2).
    assert (Hf : 0.5 <= f <= 1) by (unfold f; lra).
    assert (Hg : 0.8 <= 0.8 + r3 * 0.4 <= 1.2) by lra.
    set (g := 0.8 + r3 * 0.4) in *.
    assert (H1 : 0 <= scale0 * f <= scale0) by nra.
    assert (H2 : 0.5 * scale0 <= scale0 * f) by nra.
    split; nra.
  - unfold item, makeInstance. cbn [scatterPos].
    rewrite randomInSphere_length by (unfold SCATTER_RADIUS; lra).
    pose proof (cbrt_le_1 w Hw) as Hc.
    pose proof (cbrt_nonneg w (proj1 Hw)) as Hc0.
    unfold SCATTER_RADIUS. nra.
Qed.

Lemma X9_makeInstance_bounds_witness :
  let item := makeInstance 0.35 (getGiftPos 0 0 0) 0 0 (1 / 8) 0 0 (1 / 2) in
  0.4 * 0.35 <= scale item <= 1.2 * 0.35 /\
  scale item
  = 0.35 * (1 - (THREE.y (getGiftPos 0 0 0) + TREE_HEIGHT / 2) / TREE_HEIGHT / 2)
    * (0.8 + 1 / 2 * 0.4) /\
  THREE.length (scatterPos item) <= SCATTER_RADIUS * 0.8 /\
  treePos item = getGiftPos 0 0 0.
Proof.
  apply (X9_makeInstance_bounds 0.35 (getGiftPos 0 0 0) 0 0 (1 / 8) 0 0 (1 / 2));
    try lra.
  cbn. unfold TREE_HEIGHT. lra.
Defined.

(** X10. The top star travels straight from its start position to the
    point 0.5 above the apex: its offset from that point is the start
    offset times [(1 - progress)^3], so it is at the start for progress 0
    and on the apex point for progress 1; its scale pulses within
    [[0.9, 1.1]] and its tilt within [[-0.1, 0.1]]. *)
Theorem X10_topStar_path (time progress : R) (startPos : THREE.Vector3) :
  let tr := topStarTransform time progress startPos in
  let p := position tr in
  THREE.x p = THREE.x startPos * (1 - progress) ^ 3 /\
  THREE.y p - (TREE_HEIGHT / 2 + 0.5)
  = (THREE.y startPos - (TREE_HEIGHT / 2 + 0.5)) * (1 - progress) ^ 3 /\
  THREE.z p = THREE.z startPos * (1 - progress) ^ 3 /\
  position (topStarTransform time 0 startPos) = startPos /\
  position (topStarTransform time 1 startPos) = starEndPos /\
  0.9 <= scalar tr <= 1.1 /\
  -0.1 <= ez (rotation tr) <= 0.1.
Proof.
  intros tr p.
  pose proof (SIN_bound (time * 2)) as [Ha0 Ha1].
  pose proof (SIN_bound time) as [Hb0 Hb1].
  unfold p, tr, topStarTransform, lerpVectors, starEndPos, easeOutCubic.
  cbn [position rotation scalar ez THREE.x THREE.y THREE.z pow].
  assert (Hone : 1.0 = 1) by lra. rewrite !Hone.
  split; [ring |]. split; [ring |]. split; [ring |].
  split; [destruct startPos as [a b c]; cbn; f_equal; ring |].
  split; [f_equal; ring |].
  split; lra.
Qed.

(** ** Further properties of the gesture bridge *)

Lemma nth_error_9_length (A : Type) (l : list A) :
  Nat.leb 10 (List.length l)
  = match nth_error l 9 with Some _ => true | None => false end.
Proof.
  destruct (nth_error l 9) as [a |] eqn:H9.
  - apply Nat.leb_le. apply Nat.le_succ_l.
    apply nth_error_Some. rewrite H9. discriminate.
  - apply Nat.leb_gt. apply nth_error_None in H9.
    apply Nat.lt_succ_r. exact H9.
Qed.

(** X11. One pass of the detection loop ends normally exactly for a
    well-formed result (no hand, or a hand with a gesture entry and at
    least ten landmarks) and by a [TypeError] otherwise; either way it
    never writes the morph value, the controls or the rendered tree state,
    and a pass that throws or sees no hand leaves React's tree state as it
    was. *)
Theorem X11_processResult_completion
        (result : GestureRecognizerResult) (w : AppState) :
  let w' := stateOf (processResult result w) in
  processResult result w = (if wellFormed result then Normal w' else Throw w') /\
  value (syncData w') = value (syncData w) /\
  controls w' = controls w /\
  (isTree w' = isTree w \/
   (wellFormed result = true /\ gestures result <> [] /\ landmarks result <> [])) /\
  isTree w' = isTree w /\
  (stateIsTree w' = stateIsTree w \/
   (wellFormed result = true /\ gestures result <> [] /\ landmarks result <> [])).
Proof.
  unfold processResult, wellFormed.
  destruct (gestures result) as [| g0 gss].
  { cbn. repeat split; left; reflexivity. }
  destruct (landmarks result) as [| lms lmss].
  { cbn. repeat split; left; reflexivity. }
  rewrite nth_error_9_length.
  destruct (nth_error lms 9) as [lm9 |].
  - destruct g0 as [| g gs].
    + cbn. repeat split; left; reflexivity.
    + cbn [nth_error List.length Nat.eqb negb andb].
      destruct (categoryName g =? "Open_Palm")%string;
        [| destruct (categoryName g =? "Closed_Fist")%string];
        cbn; repeat split; try (left; reflexivity);
        right; repeat split; discriminate.
  - rewrite andb_false_r. cbn. repeat split; left; reflexivity.
Qed.

Lemma processResult_smooths (result : GestureRecognizerResult) (w : AppState)
      (g0 : list Category) (gss : list (list Category))
      (lms : list NormalizedLandmark) (lmss : list (list NormalizedLandmark))
      (lm9 : NormalizedLandmark) :
  gestures result = g0 :: gss ->
  landmarks result = lms :: lmss ->
  nth_error lms 9 = Some lm9 ->
  let w' := stateOf (processResult result w) in
  handX (syncData w') = THREE.lerp (handX (syncData w)) (1.0 - lm_x lm9) 0.1 /\
  handY (syncData w') = THREE.lerp (handY (syncData w)) (lm_y lm9) 0.1 /\
  hasHand (syncData w') = true.
Proof.
  intros Hg Hl H9. unfold processResult. rewrite Hg, Hl, H9.
  destruct (nth_error g0 0) as [g |]; [| cbn; repeat split].
  destruct (categoryName g =? "Open_Palm")%string;
    [| destruct (categoryName g =? "Closed_Fist")%string];
    cbn; repeat split.
Qed.

(** X12. Under a steady hand the smoothed position approaches the raw one
    geometrically: after [n] results with the same landmark 9 the offset
    of [handX] from the mirrored landmark [1 - x], and of [handY] from
    [y], is the initial offset times [0.9 ^ n], and [hasHand] is set as
    soon as one result was processed. *)
Theorem X12_steady_hand_closed_form
        (result : GestureRecognizerResult) (w : AppState) (n : nat)
        (g0 : list Category) (gss : list (list Category))
        (lms : list NormalizedLandmark) (lmss : list (list NormalizedLandmark))
        (lm9 : NormalizedLandmark) :
  gestures result = g0 :: gss ->
  landmarks result = lms :: lmss ->
  nth_error lms 9 = Some lm9 ->
  let wn := Nat.iter n (fun w0 => stateOf (processResult result w0)) w in
  handX (syncData wn) - (1 - lm_x lm9)
  = (handX (syncData w) - (1 - lm_x lm9)) * 0.9 ^ n /\
  handY (syncData wn) - lm_y lm9
  = (handY (syncData w) - lm_y lm9) * 0.9 ^ n /\
  hasHand (syncData wn) = (if Nat.eqb n 0 then hasHand (syncData w) else true).
Proof.
  intros Hg Hl H9. induction n as [| n IH].
  - cbn. repeat split; ring.
  - cbn zeta in *. unfold Nat.iter in *. cbn [nat_rect].
    set (wn := nat_rect (fun _ => AppState) w
                 (fun _ w0 => stateOf (processResult result w0)) n) in *.
    pose proof (processResult_smooths result wn g0 gss lms lmss lm9 Hg Hl H9)
      as (HX & HY & HH).
    destruct IH as (IHX & IHY & _).
    rewrite HX, HY, HH. unfold THREE.lerp. cbn [pow Nat.eqb].
    split; [nra |]. split; [nra | reflexivity].
Qed.

Lemma X12_steady_hand_closed_form_witness :
  let wn := Nat.iter 2 (fun w0 => stateOf (processResult fistResult w0))
                     (initialApp None) in
  handX (syncData wn) - (1 - 1 / 4) = (0.5 - (1 - 1 / 4)) * 0.9 ^ 2 /\
  handY (syncData wn) - 3 / 4 = (0.5 - 3 / 4) * 0.9 ^ 2 /\
  hasHand (syncData wn) = true.
Proof.
  apply (X12_steady_hand_closed_form fistResult (initialApp None) 2
           [mkCategory "Closed_Fist"] []
           (repeat (mkLandmark (1 / 4) (3 / 4)) 21) []
           (mkLandmark (1 / 4) (3 / 4)) eq_refl eq_refl eq_refl).
Defined.

(** ** Further properties of the morph value *)

(** X13. The morph value is frame-rate independent: two sequences of
    frames with the same total delta time leave the same value. *)
Theorem X13_value_frame_rate_independent
        (s1 s2 : R) (ds1 ds2 : list R) (w : AppState) :
  elapsed ds1 = elapsed ds2 ->
  value (syncData (runFrames s1 ds1 w)) = value (syncData (runFrames s2 ds2 w)).
Proof.
  intros He. rewrite !runFrames_value, He. reflexivity.
Qed.

Lemma X13_value_frame_rate_independent_witness :
  value (syncData (runFrames 0 [1 / 60; 1 / 60] halfwayTree))
  = value (syncData (runFrames 0 [1 / 30] halfwayTree)).
Proof.
  apply (X13_value_frame_rate_independent 0 0 [1 / 60; 1 / 60] [1 / 30] halfwayTree).
  cbn. lra.
Defined.

Lemma frame_value_unit (s delta : R) (w : AppState) :
  0 <= delta -> 0 <= value (syncData w) <= 1 ->
  0 <= value (syncData (frame s delta w)) <= 1.
Proof.
  intros Hd Hv. rewrite frame_value.
  pose proof (exp_nonpos_le_1 (- 1.5 * delta) ltac:(lra)) as Hk.
  pose proof (contract_between (value (syncData w)) (target w)
                (exp (- 1.5 * delta)) ltac:(lra)) as [Hbet _].
  unfold Rmin, Rmax in Hbet.
  destruct (Rle_dec (value (syncData w)) (target w));
    destruct (target_cases w) as [Ht | Ht]; rewrite Ht in *; lra.
Qed.

Lemma processResult_value (result : GestureRecognizerResult) (w : AppState) :
  value (syncData (stateOf (processResult result w))) = value (syncData w).
Proof.
  unfold processResult.
  destruct (gestures result) as [| g0 gss]; [reflexivity |].
  destruct (landmarks result) as [| lms lmss]; [reflexivity |].
  destruct (nth_error lms 9) as [lm9 |]; [| reflexivity].
  destruct (nth_error g0 0) as [g |]; [| reflexivity].
  destruct (categoryName g =? "Open_Palm")%string; [reflexivity |].
  destruct (categoryName g =? "Closed_Fist")%string; reflexivity.
Qed.

(** X14. In every run of detection results, frames and toggles whose
    frames have delta times that are not negative, a morph value in
    [[0,1]] stays in [[0,1]]. *)
Theorem X14_value_stays_in_unit_interval
        (s : R) (es : list Event) (w : AppState) :
  forwardFrames es -> 0 <= value (syncData w) <= 1 ->
  0 <= value (syncData (run s es w)) <= 1.
Proof.
  intros Hes. revert w. induction Hes as [| e es He _ IH]; intros w Hv.
  - exact Hv.
  - unfold run in *. cbn [fold_left]. apply IH.
    destruct e as [result | delta | |]; cbn [applyEvent].
    + rewrite processResult_value. exact Hv.
    + apply frame_value_unit; assumption.
    + exact Hv.
    + exact Hv.
Qed.

Lemma X14_value_stays_in_unit_interval_witness :
  0 <= value (syncData (run 0 [Detect fistResult; Render; Frame (1 / 60); Toggle; Frame 0]
                            (initialApp None))) <= 1.
Proof.
  apply (X14_value_stays_in_unit_interval 0
           [Detect fistResult; Render; Frame (1 / 60); Toggle; Frame 0]
           (initialApp None)).
  - repeat constructor; lra.
  - cbn. lra.
Defined.

(** X15. The morph value has no jumps: for a value in [[0,1]] and a delta
    time that is not negative, one frame changes the value by at most
    [1.5 * delta], and by no more than its distance to the target. *)
Theorem X15_value_change_bounded (s delta : R) (w : AppState) :
  0 <= delta -> 0 <= value (syncData w) <= 1 ->
  let v := value (syncData w) in
  let v' := value (syncData (frame s delta w)) in
  Rabs (v' - v) <= 1.5 * delta /\
  Rabs (v' - v) <= Rabs (target w - v).
Proof.
  intros Hd Hv v v'.
  assert (Hv' : v' = target w + (v - target w) * exp (- 1.5 * delta))
    by apply frame_value.
  pose proof (exp_nonpos_le_1 (- 1.5 * delta) ltac:(lra)) as [Hk0 Hk1].
  pose proof (exp_ineq1_le (- 1.5 * delta)) as Hk2.
  set (k := exp (- 1.5 * delta)) in *.
  replace (v' - v) with ((target w - v) * (1 - k)) by (rewrite Hv'; ring).
  rewrite Rabs_mult, (Rabs_right (1 - k)) by lra.
  assert (Ht : Rabs (target w - v) <= 1).
  { apply Rabs_le. fold v in Hv.
    destruct (target_cases w) as [Ht | Ht]; rewrite Ht; lra. }
  pose proof (Rabs_pos (target w - v)) as Hpos.
  split; nra.
Qed.

Lemma X15_value_change_bounded_witness :
  let v := value (syncData halfwayTree) in
  let v' := value (syncData (frame 0 (1 / 60) halfwayTree)) in
  Rabs (v' - v) <= 1.5 * (1 / 60) /\
  Rabs (v' - v) <= Rabs (target halfwayTree - v).
Proof.
  apply (X15_value_change_bounded 0 (1 / 60) halfwayTree).
  - lra.
  - cbn. lra.
Defined.

Lemma exp_le_reflect (a b : R) : exp a <= exp b <-> a <= b.
Proof.
  split; intros H.
  - destruct (Rle_lt_dec a b) as [Hle | Hlt]; [exact Hle |].
    apply exp_increasing in Hlt. lra.
  - destruct H as [H | H]; [left; apply exp_increasing; exact H |].
    subst a. lra.
Qed.

(** X16. From value 0 with the tree state set, the morph value is within
    1% of 1.0 exactly when the delta times of the frames add up to at
    least [ln 100 / 1.5]. *)
Theorem X16_ninety_nine_percent_time (s : R) (deltas : list R) (w : AppState) :
  value (syncData w) = 0 -> isTree w = true ->
  (0.99 <= value (syncData (runFrames s deltas w))
   <-> ln 100 / 1.5 <= elapsed deltas).
Proof.
  intros Hv Ht. rewrite runFrames_value, Hv. unfold target. rewrite Ht.
  set (T := elapsed deltas).
  assert (Hln : exp (- ln 100) = 0.01).
  { rewrite exp_Ropp, exp_ln by lra. lra. }
  assert (Hiff : exp (- 1.5 * T) <= exp (- ln 100) <-> - 1.5 * T <= - ln 100)
    by apply exp_le_reflect.
  rewrite Hln in Hiff.
  split; intros H.
  - assert (H1 : exp (- 1.5 * T) <= 0.01) by lra.
    apply Hiff in H1. lra.
  - assert (H1 : - 1.5 * T <= - ln 100) by lra.
    apply Hiff in H1. lra.
Qed.

Lemma X16_ninety_nine_percent_time_witness :
  0.99 <= value (syncData (runFrames 0 [1; 1; 1] scatteredToTree))
  <-> ln 100 / 1.5 <= elapsed [1; 1; 1].
Proof.
  apply (X16_ninety_nine_percent_time 0 [1; 1; 1] scatteredToTree);
    reflexivity.
Defined.

(** ** Further properties of the camera control *)






(** X19. Frames write only the morph value and the controls: after any
    number of frames the tree state (rendered and React's) and the hand
    fields are as before, and controls that are not mounted stay so. *)
Theorem X19_frames_leave_bridge_state (s : R) (deltas : list R) (w : AppState) :
  let w' := runFrames s deltas w in
  isTree w' = isTree w /\
  handX (syncData w') = handX (syncData w) /\
  handY (syncData w') = handY (syncData w) /\
  hasHand (syncData w') = hasHand (syncData w) /\
  (controls w' = None <-> controls w = None) /\
  stateIsTree w' = stateIsTree w.
Proof.
  revert w. induction deltas as [| d ds IH]; intros w.
  - cbn. repeat split; intros H; exact H.
  - change (runFrames s (d :: ds) w) with (runFrames s ds (frame s d w)).
    destruct (IH (frame s d w)) as (H1 & H2 & H3 & H4 & H5 & H6).
    cbn zeta. rewrite H1, H2, H3, H4, H5, H6.
    repeat split; cbn [frame controls] in *;
      destruct (controls w); cbn; intros H; congruence.
Qed.

(** ** How gestures, gaps and toggles compose *)

Lemma processResult_stateIsTree_congr
      (result : GestureRecognizerResult) (w1 w2 : AppState) :
  stateIsTree w1 = stateIsTree w2 ->
  stateIsTree (stateOf (processResult result w1))
  = stateIsTree (stateOf (processResult result w2)).
Proof.
  intros H. unfold processResult.
  destruct (gestures result) as [| g0 gss]; [exact H |].
  destruct (landmarks result) as [| lms lmss]; [exact H |].
  destruct (nth_error lms 9) as [lm9 |]; [| exact H].
  destruct (nth_error g0 0) as [g |]; [| exact H].
  destruct (categoryName g =? "Open_Palm")%string; [reflexivity |].
  destruct (categoryName g =? "Closed_Fist")%string; [reflexivity | exact H].
Qed.

(** Two states that agree on the rendered tree state, React's tree state
    and the morph value still agree on them after any run. *)
Lemma run_same_morph (s : R) (es : list Event) (w1 w2 : AppState) :
  isTree w1 = isTree w2 ->
  stateIsTree w1 = stateIsTree w2 ->
  value (syncData w1) = value (syncData w2) ->
  isTree (run s es w1) = isTree (run s es w2) /\
  stateIsTree (run s es w1) = stateIsTree (run s es w2) /\
  value (syncData (run s es w1)) = value (syncData (run s es w2)).
Proof.
  revert w1 w2. induction es as [| e es IH]; intros w1 w2 Ht Hs Hv.
  - repeat split; assumption.
  - unfold run in *. cbn [fold_left].
    destruct e as [result | delta | |]; cbn [applyEvent]; apply IH.
    + rewrite !processResult_isTree. exact Ht.
    + apply processResult_stateIsTree_congr. exact Hs.
    + rewrite !processResult_value. exact Hv.
    + exact Ht.
    + exact Hs.
    + rewrite !frame_value. unfold target. rewrite Ht, Hv. reflexivity.
    + exact Ht.
    + cbn. rewrite Ht. reflexivity.
    + exact Hv.
    + cbn. exact Hs.
    + exact Hs.
    + exact Hv.
Qed.

(** X20. A gesture that asks for the state already selected changes
    nothing for the morph: after a hand result whose label maps to the
    current tree state (or to nothing), every later sequence of frames
    gives the same morph value as without that result; and when no state
    change is pending, so does every later run of results, frames,
    toggles and renders. *)
Theorem X20_redundant_gesture_keeps_trajectory
        (s : R) (deltas : list R)
        (result : GestureRecognizerResult) (w : AppState)
        (g : Category) (gs : list Category) (gss : list (list Category))
        (lms : list NormalizedLandmark) (lmss : list (list NormalizedLandmark))
        (lm9 : NormalizedLandmark) :
  gestures result = (g :: gs) :: gss ->
  landmarks result = lms :: lmss ->
  nth_error lms 9 = Some lm9 ->
  (if (categoryName g =? "Open_Palm")%string then false
   else if (categoryName g =? "Closed_Fist")%string then true
   else isTree w) = isTree w ->
  let w' := stateOf (processResult result w) in
  isTree w' = isTree w /\
  value (syncData (runFrames s deltas w')) = value (syncData (runFrames s deltas w)) /\
  (stateIsTree w = isTree w ->
   stateIsTree w' = stateIsTree w /\
   forall es : list Event,
     value (syncData (run s es w')) = value (syncData (run s es w)) /\
     isTree (run s es w') = isTree (run s es w)).
Proof.
  intros Hg Hl H9 Hsame w'.
  pose proof (processResult_hand result w g gs gss lms lmss lm9 Hg Hl H9) as Hp.
  cbn zeta in Hp.
  assert (Ht : isTree w' = isTree w) by apply processResult_isTree.
  assert (Hv : value (syncData w') = value (syncData w))
    by apply processResult_value.
  split; [exact Ht |]. split.
  - rewrite !runFrames_value. unfold target. rewrite Ht, Hv. reflexivity.
  - intros Hsettled.
    assert (Hs : stateIsTree w' = stateIsTree w).
    { unfold w'. rewrite Hp. cbn [stateOf setTreeState stateIsTree].
      rewrite Hsettled. exact Hsame. }
    split; [exact Hs |]. intros es.
    destruct (run_same_morph s es w' w Ht Hs Hv) as (H1 & _ & H3).
    split; assumption.
Qed.

Lemma X20_redundant_gesture_keeps_trajectory_witness :
  let w' := stateOf (processResult fistResult halfwayTree) in
  isTree w' = isTree halfwayTree /\
  value (syncData (runFrames 0 [1 / 60; 1 / 60] w'))
  = value (syncData (runFrames 0 [1 / 60; 1 / 60] halfwayTree)) /\
  (stateIsTree halfwayTree = isTree halfwayTree ->
   stateIsTree w' = stateIsTree halfwayTree /\
   forall es : list Event,
     value (syncData (run 0 es w')) = value (syncData (run 0 es halfwayTree)) /\
     isTree (run 0 es w') = isTree (run 0 es halfwayTree)).
Proof.
  apply (X20_redundant_gesture_keeps_trajectory 0 [1 / 60; 1 / 60]
           fistResult halfwayTree
           (mkCategory "Closed_Fist") [] []
           (repeat (mkLandmark (1 / 4) (3 / 4)) 21) []
           (mkLandmark (1 / 4) (3 / 4)) eq_refl eq_refl eq_refl eq_refl).
Defined.

(** X21. A detection gap does not disturb the smoothing: processing a
    no-hand result before a hand result gives the same state as the hand
    result alone. *)
Theorem X21_gap_then_hand
        (gap result : GestureRecognizerResult) (w : AppState)
        (g0 : list Category) (gss : list (list Category))
        (lms : list NormalizedLandmark) (lmss : list (list NormalizedLandmark))
        (lm9 : NormalizedLandmark) :
  gestures gap = [] \/ landmarks gap = [] ->
  gestures result = g0 :: gss ->
  landmarks result = lms :: lmss ->
  nth_error lms 9 = Some lm9 ->
  processResult result (stateOf (processResult gap w)) = processResult result w.
Proof.
  intros Hgap Hg Hl H9. rewrite (processResult_no_hand gap w Hgap).
  cbn [stateOf]. unfold processResult. rewrite Hg, Hl, H9.
  destruct w as [b b' sd c]. reflexivity.
Qed.

Lemma X21_gap_then_hand_witness :
  processResult fistResult (stateOf (processResult noHandResult halfwayTree))
  = processResult fistResult halfwayTree.
Proof.
  apply (X21_gap_then_hand noHandResult fistResult halfwayTree
           [mkCategory "Closed_Fist"] []
           (repeat (mkLandmark (1 / 4) (3 / 4)) 21) []
           (mkLandmark (1 / 4) (3 / 4))).
  - left. reflexivity.
  - reflexivity.
  - reflexivity.
  - reflexivity.
Defined.

